(** * The prompt-submission hook (hooks/user-prompt-submit.py)

    A shallow embedding of [UserPromptSubmitHook] and of [main], and the
    properties of the prompt pipeline: security screening, keyword based
    agent detection, the project context probe, the context store, the
    telemetry and orchestration clients and the prompt annotation.

    Conventions of the embedding.
    - A Python [str] is a Rocq [string], one [ascii] per character; the
      character predicates ([lower], [\s], [\w]) are those of the ASCII
      range, and characters above it have no case, are no space and are no
      word character.
    - A Python [dict] is an association list in insertion order
      ([dict]); its keys are unique ([dict_wf]).
    - The standard library and the outside world (clock, md5, file system,
      JSON decoding, sqlite, HTTP, the order in which a [set] is listed)
      are an oracle [env]; what the program does to the world is recorded
      in [world].  A computation is a function from the world to a result
      or a raised exception together with the world it leaves behind. *)

From Stdlib Require Import String Ascii List Bool Arith ZArith Lia.
From Stdlib Require Import Permutation DecimalString.
Import ListNotations.

Local Open Scope string_scope.
Local Open Scope list_scope.

(* ===================================================================== *)
(** * Text *)
(* ===================================================================== *)

Module Text.

(** The double quote, which the credential patterns contain. *)
Definition dquote : string := String "034"%char EmptyString.

(** The line feed of the annotation. *)
Definition newline : string := String "010"%char EmptyString.

Definition is_upper (c : ascii) : bool :=
  let n := nat_of_ascii c in Nat.leb 65 n && Nat.leb n 90.

Definition is_lower (c : ascii) : bool :=
  let n := nat_of_ascii c in Nat.leb 97 n && Nat.leb n 122.

Definition is_digit (c : ascii) : bool :=
  let n := nat_of_ascii c in Nat.leb 48 n && Nat.leb n 57.

(** [str.lower] on one character. *)
Definition lower_char (c : ascii) : ascii :=
  if is_upper c then ascii_of_nat (nat_of_ascii c + 32) else c.

(** [str.lower]. *)
Fixpoint lower (s : string) : string :=
  match s with
  | EmptyString => EmptyString
  | String c t => String (lower_char c) (lower t)
  end.

(** The class [\s] of a [str] pattern: tab to carriage return, the four
    separators 0x1c to 0x1f, and the blank. *)
Definition is_space (c : ascii) : bool :=
  let n := nat_of_ascii c in
  (Nat.leb 9 n && Nat.leb n 13) || (Nat.leb 28 n && Nat.leb n 31) || Nat.eqb n 32.

(** The class [\w]: letters, digits and the underscore. *)
Definition is_word (c : ascii) : bool :=
  is_upper c || is_lower c || is_digit c || Nat.eqb (nat_of_ascii c) 95.

(** [needle in hay] on strings. *)
Fixpoint contains (needle hay : string) : bool :=
  prefix needle hay ||
  match hay with
  | EmptyString => false
  | String _ t => contains needle t
  end.

(** A text occurs in another: the other is some text, then it, then
    some more text. *)
Definition occurs_in (needle hay : string) : Prop :=
  exists pre post, hay = (pre ++ needle ++ post)%string.

(** [sep.join(parts)] is [String.concat sep parts]. *)
Definition join (sep : string) (parts : list string) : string :=
  String.concat sep parts.

(** [str(n)] for a natural number. *)
Definition str_of_nat (n : nat) : string :=
  NilEmpty.string_of_uint (Nat.to_uint n).

Fixpoint all_chars (p : ascii -> bool) (s : string) : bool :=
  match s with
  | EmptyString => true
  | String c t => p c && all_chars p t
  end.

Definition last_char (s : string) : option ascii :=
  match String.length s with
  | O => None
  | S n => get n s
  end.

Definition first_char (s : string) : option ascii := get 0 s.

(** The character just before a position: the last one of the text read
    so far, or the one before that text. *)
Fixpoint last_or (prev : option ascii) (read : string) : option ascii :=
  match read with
  | EmptyString => prev
  | String c t => last_or (Some c) t
  end.

(** [x in l] for a list of strings. *)
Definition in_strings (x : string) (l : list string) : bool :=
  existsb (String.eqb x) l.

(** No string is listed twice. *)
Fixpoint distinct (l : list string) : bool :=
  match l with
  | [] => true
  | x :: r => negb (in_strings x r) && distinct r
  end.

(** The edge of a run of word characters: no character, or one that is
    not a word character. *)
Definition word_edge (c : option ascii) : bool :=
  match c with
  | Some a => negb (is_word a)
  | None => true
  end.

End Text.

(* ===================================================================== *)
(** * The [re] module, for the patterns of this hook *)
(* ===================================================================== *)

(** The hook's seventeen patterns are sequences of single characters,
    character classes and greedy repetitions of them, and the word
    boundary.  [re_compile] reads this fragment of the pattern syntax and
    answers [None] outside it (groups, alternation, anchors, lazy
    repetition, ranges in a set). *)
Module Re.
Import Text.

Inductive cclass : Type :=
| CChar (c : ascii)            (* a literal character *)
| CAny                         (* .  : anything but a line feed *)
| CSpace                       (* \s *)
| CWord                        (* \w *)
| CSet (l : list ascii)        (* [...] *)
| CNotSet (l : list ascii).    (* [^...] *)

Inductive atom : Type :=
| One (c : cclass)
| Rep (c : cclass) (lo : nat) (hi : option nat)   (* greedy c{lo,hi} *)
| WordB.                                          (* \b *)

Definition pattern := list atom.

Definition ascii_eqb (a b : ascii) : bool := Ascii.eqb a b.

Definition mem_char (a : ascii) (l : list ascii) : bool :=
  existsb (ascii_eqb a) l.

(** Does the class accept the character; [ic] is [re.IGNORECASE]. *)
Definition cmatch (ic : bool) (c : cclass) (a : ascii) : bool :=
  let fold := fun x => if ic then lower_char x else x in
  match c with
  | CChar x => ascii_eqb (fold x) (fold a)
  | CAny => negb (ascii_eqb a "010"%char)
  | CSpace => is_space a
  | CWord => is_word a
  | CSet l => mem_char (fold a) (map fold l)
  | CNotSet l => negb (mem_char (fold a) (map fold l))
  end.

(** [\b] between the character before the position and the text after. *)
Definition at_boundary (prev : option ascii) (s : string) : bool :=
  let before := match prev with Some a => is_word a | None => false end in
  let after := match s with String a _ => is_word a | EmptyString => false end in
  xorb before after.

Definition below (n : nat) (hi : option nat) : bool :=
  match hi with
  | None => true
  | Some h => Nat.ltb n h
  end.

(** Greedy repetition: take one more character while the class accepts
    it and the bound allows, and give characters back until the rest of
    the pattern, [k], matches.  [n] characters are taken already.  The
    result is the text matched from here on. *)
Fixpoint rep_greedy (k : option ascii -> string -> option string)
    (ok : ascii -> bool) (lo : nat) (hi : option nat)
    (n : nat) (prev : option ascii) (s : string) {struct s} : option string :=
  let stop := if Nat.leb lo n then k prev s else None in
  match s with
  | EmptyString => stop
  | String a t =>
      if below n hi && ok a then
        match rep_greedy k ok lo hi (S n) (Some a) t with
        | Some m => Some (String a m)
        | None => stop
        end
      else stop
  end.

(** The match of [p] that starts exactly here, if there is one: the
    matched text, the one a backtracking matcher finds first. *)
Fixpoint match_here (ic : bool) (p : pattern) (prev : option ascii)
    (s : string) {struct p} : option string :=
  match p with
  | [] => Some EmptyString
  | One c :: rest =>
      match s with
      | EmptyString => None
      | String a t =>
          if cmatch ic c a then
            match match_here ic rest (Some a) t with
            | Some m => Some (String a m)
            | None => None
            end
          else None
      end
  | WordB :: rest =>
      if at_boundary prev s then match_here ic rest prev s else None
  | Rep c lo hi :: rest =>
      rep_greedy (match_here ic rest) (cmatch ic c) lo hi 0 prev s
  end.

(** [re.search(p, s)] as a truth value: is there a match at some
    position, scanning from the left. *)
Fixpoint search_from (ic : bool) (p : pattern) (prev : option ascii)
    (s : string) : bool :=
  match match_here ic p prev s with
  | Some _ => true
  | None =>
      match s with
      | EmptyString => false
      | String a t => search_from ic p (Some a) t
      end
  end.

(** [re.findall(p, s)] for a pattern without groups: the matches from
    left to right, none overlapping.  [skip] counts the characters still
    inside the last match.  After an empty match the scan moves one
    character on. *)
Fixpoint findall_from (ic : bool) (p : pattern) (prev : option ascii)
    (s : string) (skip : nat) {struct s} : list string :=
  match skip with
  | S k =>
      match s with
      | EmptyString => []
      | String a t => findall_from ic p (Some a) t k
      end
  | O =>
      match match_here ic p prev s with
      | Some m =>
          m :: match s with
               | EmptyString => []
               | String a t => findall_from ic p (Some a) t (pred (String.length m))
               end
      | None =>
          match s with
          | EmptyString => []
          | String a t => findall_from ic p (Some a) t 0
          end
      end
  end.

(** ** Reading a pattern *)

Definition is_quantifier (c : ascii) : bool :=
  mem_char c ["*"; "+"; "?"; "{"]%char.

Definition is_special (c : ascii) : bool :=
  mem_char c ["("; ")"; "|"; "^"; "$"; "*"; "+"; "?"; "{"; "}"; "]"]%char.

(** The members of a set up to the closing bracket, and the text after
    it.  A backslash, or a dash between two members, is outside the
    fragment. *)
Fixpoint read_set (s : string) (acc : list ascii) : option (list ascii * string) :=
  match s with
  | EmptyString => None
  | String c t =>
      if ascii_eqb c "]"%char then
        match acc with
        | [] => None
        | _ => Some (rev acc, t)
        end
      else if ascii_eqb c "\"%char then None
      else if ascii_eqb c "-"%char then
        match acc, t with
        | [], _ => read_set t (c :: acc)
        | _, String "]"%char _ => read_set t (c :: acc)
        | _, _ => None
        end
      else read_set t (c :: acc)
  end.

(** Decimal digits, then the text after them. *)
Fixpoint read_nat (s : string) (acc : option nat) : option nat * string :=
  match s with
  | String c t =>
      if is_digit c then
        let d := nat_of_ascii c - 48 in
        read_nat t (Some (match acc with Some n => 10 * n + d | None => d end))
      else (acc, s)
  | EmptyString => (acc, s)
  end.

(** One class at the head of the text; [inr tt] stands for [\b]. *)
Definition read_class (s : string) : option ((cclass + unit) * string) :=
  match s with
  | EmptyString => None
  | String c t =>
      if ascii_eqb c "\"%char then
        match t with
        | EmptyString => None
        | String e t' =>
            if ascii_eqb e "s"%char then Some (inl CSpace, t')
            else if ascii_eqb e "w"%char then Some (inl CWord, t')
            else if ascii_eqb e "b"%char then Some (inr tt, t')
            else if is_word e then None
            else Some (inl (CChar e), t')
        end
      else if ascii_eqb c "."%char then Some (inl CAny, t)
      else if ascii_eqb c "["%char then
        match t with
        | String "^"%char t' =>
            match read_set t' [] with
            | Some (l, r) => Some (inl (CNotSet l), r)
            | None => None
            end
        | _ =>
            match read_set t [] with
            | Some (l, r) => Some (inl (CSet l), r)
            | None => None
            end
        end
      else if is_special c then None
      else Some (inl (CChar c), t)
  end.

(** The repetition that follows a class, if any: [*], [+], [?], [{n,}].
    A second repetition sign after it (lazy or possessive) is outside
    the fragment. *)
Definition read_quantifier (s : string)
  : option (option (nat * option nat) * string) :=
  let checked := fun (q : nat * option nat) (r : string) =>
    match r with
    | String c _ => if is_quantifier c then None else Some (Some q, r)
    | EmptyString => Some (Some q, r)
    end in
  match s with
  | String "*"%char r => checked (0, None) r
  | String "+"%char r => checked (1, None) r
  | String "?"%char r => checked (0, Some 1) r
  | String "{"%char r =>
      match read_nat r None with
      | (Some n, String ","%char (String "}"%char r')) => checked (n, None) r'
      | _ => None
      end
  | _ => Some (None, s)
  end.

Fixpoint parse (fuel : nat) (s : string) : option pattern :=
  match fuel with
  | O => None
  | S fuel' =>
      match s with
      | EmptyString => Some []
      | _ =>
          match read_class s with
          | None => None
          | Some (inr _, r) =>
              match r with
              | String c _ =>
                  if is_quantifier c then None
                  else option_map (cons WordB) (parse fuel' r)
              | EmptyString => Some [WordB]
              end
          | Some (inl c, r) =>
              match read_quantifier r with
              | None => None
              | Some (None, r') => option_map (cons (One c)) (parse fuel' r')
              | Some (Some (lo, hi), r') =>
                  option_map (cons (Rep c lo hi)) (parse fuel' r')
              end
          end
      end
  end.

(** The pattern of [extract_keywords], read. *)
Definition word_pattern : pattern := [WordB; Rep CWord 3 None; WordB].

(** [re.compile], on the fragment. *)
Definition re_compile (src : string) : option pattern :=
  parse (S (String.length src)) src.

(** [bool(re.search(src, s, flags))]; [None] when the pattern is outside
    the fragment. *)
Definition re_search (src s : string) (ignorecase : bool) : option bool :=
  option_map (fun p => search_from ignorecase p None s) (re_compile src).

(** [re.findall(src, s)]. *)
Definition re_findall (src s : string) : option (list string) :=
  option_map (fun p => findall_from false p None s 0) (re_compile src).

End Re.

(* ===================================================================== *)
(** * Python values, exceptions and effects *)
(* ===================================================================== *)

Module Py.

(** ** Dictionaries, in insertion order *)

Definition dict (V : Type) : Type := list (string * V).

Fixpoint dict_get {V : Type} (d : dict V) (k : string) : option V :=
  match d with
  | [] => None
  | (k', v) :: r => if String.eqb k k' then Some v else dict_get r k
  end.

(** [d[k] = v]: in place when the key is there, at the end when not. *)
Fixpoint dict_set {V : Type} (d : dict V) (k : string) (v : V) : dict V :=
  match d with
  | [] => [(k, v)]
  | (k', v') :: r =>
      if String.eqb k k' then (k', v) :: r else (k', v') :: dict_set r k v
  end.

Definition dict_keys {V : Type} (d : dict V) : list string := map fst d.

Definition dict_values {V : Type} (d : dict V) : list V := map snd d.

(** The keys of a dictionary are unique. *)
Definition dict_wf {V : Type} (d : dict V) : bool :=
  Text.distinct (dict_keys d).

(** Truth value of a container: it is not empty. *)
Definition truthy {A : Type} (l : list A) : bool :=
  match l with
  | [] => false
  | _ :: _ => true
  end.

(** ** JSON documents *)

#[warnings="-register-all"]
Inductive json : Type :=
| JNull
| JBool (b : bool)
| JNum (z : Z)
| JStr (s : string)
| JArr (l : list json)
| JObj (m : list (string * json)).

(** What a function hands back when callers look at it: [None], as a
    function without [return] does, or a truth value. *)
Inductive pyval : Type :=
| PyNone
| PyBool (b : bool).

(** ** Exceptions *)

(** An instance of a subclass of [Exception]: its class and message. *)
Inductive exception : Type :=
| Exception (cls msg : string).

(** What can be raised.  [SystemExit] is no [Exception]:
    [except Exception] lets it pass. *)
Inductive exn : Type :=
| SystemExit (code : Z)
| Raised (e : exception).

(** The result of a computation of the program. *)
Inductive res (A : Type) : Type :=
| Ok (a : A)
| Raise (e : exn).

Arguments Ok {A} a.
Arguments Raise {A} e.

(** The result of a call into a library: a value, or an [Exception]. *)
Inductive answer (A : Type) : Type :=
| Returns (a : A)
| Fails (e : exception).

Arguments Returns {A} a.
Arguments Fails {A} e.

(** [str(e)]. *)
Definition str_exc (e : exception) : string :=
  match e with
  | Exception _ msg => msg
  end.

End Py.

(* ===================================================================== *)
(** * The hook *)
(* ===================================================================== *)

Module Hook.
Import Text Re Py.

(** ** Data *)

(** category -> agent -> keywords *)
Definition taxonomy : Type := dict (dict (list string)).

(** Every dictionary of a taxonomy has unique keys. *)
Definition taxonomy_wf (T : taxonomy) : bool :=
  dict_wf T && forallb (fun entry => dict_wf (snd entry)) T.

(** category -> agent -> matched keywords *)
Definition detection : Type := dict (dict (list string)).

(** The dictionary of [get_project_context]; the key
    [claude_md_content] is there or not. *)
Record project_context : Type := {
  working_directory : string;
  project_name : string;
  has_package_json : bool;
  has_claude_md : bool;
  has_local_claude : bool;
  git_repository : bool;
  claude_md_content : option string
}.

(** A row of [context_memory], with the three JSON columns before
    [json.dumps]. *)
Record context_row : Type := {
  row_session_id : string;
  row_timestamp : string;
  row_user_prompt : string;
  row_detected_agents : detection;
  row_context_keywords : list string;
  row_project_context : project_context
}.

Record event_data : Type := {
  ev_timestamp : string;
  ev_sessionId : string;
  ev_eventType : string;
  ev_hookType : string;
  ev_userPrompt : string;
  ev_detected_agents : detection;
  ev_project_context : project_context;
  ev_security_check : string
}.

Record routing_data : Type := {
  rt_session_id : string;
  rt_user_prompt : string;
  rt_detected_agents : detection;
  rt_project_context : project_context;
  rt_timestamp : string
}.

Inductive http_body : Type :=
| EventBody (e : event_data)
| RoutingBody (r : routing_data).

(** A [requests.Response]: the status, and what [.json()] gives. *)
Record response : Type := {
  status_code : Z;
  response_json : answer json
}.

Inductive sql : Type :=
| CreateTable
| CreateIndex
| Insert (r : context_row).

(** The result dictionary of [process_prompt]. *)
Inductive result : Type :=
| Block (reason : string) (issues : list string) (session_id : string)
| Continue (session_id : string) (detected_agents : detection)
    (ctx : project_context) (orchestration_result : option json)
    (enhanced_prompt : string).

Definition action (r : result) : string :=
  match r with
  | Block _ _ _ => "block"
  | Continue _ _ _ _ _ => "continue"
  end.

(** ** The world and the oracle *)

(** What the process has done: the rows it sees in [context_memory], the
    rows committed, the HTTP requests it made, the lines it printed, and
    how often it read the clock. *)
Record world : Type := {
  db_rows : list context_row;
  db_committed : list context_row;
  http_requests : list (string * http_body);
  stdout : list string;
  stderr : list string;
  clock_reads : nat
}.

(** What the outside answers.  The keyword file, when it decodes, holds a
    taxonomy. *)
Record env : Type := {
  argv : list string;
  clock : nat -> string;                        (* datetime.now().isoformat() *)
  md5_hexdigest : string -> string;
  home : string;                                (* Path.home() *)
  cwd : string;                                 (* os.getcwd() *)
  path_exists : string -> bool;
  read_text : string -> answer string;          (* open(p, 'r', utf-8).read() *)
  load_taxonomy_file : string -> answer taxonomy;  (* open(p) and json.load *)
  load_json_file : string -> answer json;
  sqlite_connect : string -> answer unit;
  sqlite_execute : sql -> answer unit;
  sqlite_commit : answer unit;
  requests_post : string -> http_body -> answer response;
  set_order : list string -> list string        (* list(set(l)) *)
}.

(** [list(set(l))] lists every member of [l] once; the order is the
    interpreter's. *)
Definition set_order_ok (f : list string -> list string) : Prop :=
  forall l, NoDup (f l) /\ forall x, In x (f l) <-> In x l.

(** ** Computations *)

Definition M (A : Type) : Type := world -> res A * world.

Definition ret {A : Type} (a : A) : M A := fun w => (Ok a, w).

Definition bind {A B : Type} (c : M A) (k : A -> M B) : M B :=
  fun w =>
    match c w with
    | (Ok a, w') => k a w'
    | (Raise e, w') => (Raise e, w')
    end.

Definition raise {A : Type} (e : exn) : M A := fun w => (Raise e, w).

(** A library call that changes nothing in the world. *)
Definition lift {A : Type} (r : answer A) : M A :=
  fun w =>
    match r with
    | Returns a => (Ok a, w)
    | Fails e => (Raise (Raised e), w)
    end.

(** [try: body / except Exception as e: handler e]. *)
Definition try_except {A : Type} (body : M A) (handler : exception -> M A)
  : M A :=
  fun w =>
    match body w with
    | (Raise (Raised e), w') => handler e w'
    | other => other
    end.

Declare Scope py_scope.
Delimit Scope py_scope with py.
Notation "x <- c ;; k" := (bind c (fun x => k))
  (at level 61, c at next level, right associativity) : py_scope.
Notation "c ;; k" := (bind c (fun _ => k))
  (at level 61, right associativity) : py_scope.
Local Open Scope py_scope.

Fixpoint for_each {A : Type} (l : list A) (body : A -> M unit) : M unit :=
  match l with
  | [] => ret tt
  | x :: r => body x ;; for_each r body
  end.

Definition print (line : string) : M unit :=
  fun w => (Ok tt,
    {| db_rows := db_rows w; db_committed := db_committed w;
       http_requests := http_requests w;
       stdout := stdout w ++ [line]; stderr := stderr w;
       clock_reads := clock_reads w |}).

Definition print_err (line : string) : M unit :=
  fun w => (Ok tt,
    {| db_rows := db_rows w; db_committed := db_committed w;
       http_requests := http_requests w;
       stdout := stdout w; stderr := stderr w ++ [line];
       clock_reads := clock_reads w |}).

Definition sys_exit {A : Type} (code : Z) : M A := raise (SystemExit code).

(** [datetime.now().isoformat()]. *)
Definition now (E : env) : M string :=
  fun w => (Ok (clock E (clock_reads w)),
    {| db_rows := db_rows w; db_committed := db_committed w;
       http_requests := http_requests w;
       stdout := stdout w; stderr := stderr w;
       clock_reads := S (clock_reads w) |}).

(** [requests.post(url, json=body, timeout=...)]: the request is made,
    and the outside answers or the call raises. *)
Definition post (E : env) (url : string) (body : http_body) : M response :=
  fun w =>
    let w' :=
      {| db_rows := db_rows w; db_committed := db_committed w;
         http_requests := http_requests w ++ [(url, body)];
         stdout := stdout w; stderr := stderr w;
         clock_reads := clock_reads w |} in
    lift (requests_post E url body) w'.

(** [conn.execute(stmt)]: an insert that succeeds adds its row; the two
    [CREATE ... IF NOT EXISTS] leave the rows as they are. *)
Definition db_execute (E : env) (stmt : sql) : M unit :=
  fun w =>
    match sqlite_execute E stmt with
    | Returns _ =>
        (Ok tt,
         match stmt with
         | Insert r =>
             {| db_rows := db_rows w ++ [r]; db_committed := db_committed w;
                http_requests := http_requests w;
                stdout := stdout w; stderr := stderr w;
                clock_reads := clock_reads w |}
         | _ => w
         end)
    | Fails e => (Raise (Raised e), w)
    end.

(** [conn.commit()]. *)
Definition db_commit (E : env) : M unit :=
  fun w =>
    match sqlite_commit E with
    | Returns _ =>
        (Ok tt,
         {| db_rows := db_rows w; db_committed := db_rows w;
            http_requests := http_requests w;
            stdout := stdout w; stderr := stderr w;
            clock_reads := clock_reads w |})
    | Fails e => (Raise (Raised e), w)
    end.

(** ** Paths *)

(** [os.path.join(a, b)] and [Path(a) / b] for a relative [b]. *)
Definition path_join (a b : string) : string :=
  match last_char a with
  | None => b
  | Some c => if Ascii.eqb c "/"%char then (a ++ b)%string
              else (a ++ "/" ++ b)%string
  end.

(** [Path(p).name] for a path without a trailing slash: the text after
    the last slash. *)
Fixpoint path_name_from (p acc : string) : string :=
  match p with
  | EmptyString => acc
  | String c t =>
      if Ascii.eqb c "/"%char then path_name_from t EmptyString
      else path_name_from t (acc ++ String c EmptyString)%string
  end.

Definition path_name (p : string) : string := path_name_from p EmptyString.

(** ** [UserPromptSubmitHook] *)

(** The attributes of the object; [context_db] is the connection, whose
    table is in the world. *)
Record hook : Type := {
  session_id : string;
  keyword_patterns : taxonomy;
  security_filters : list string;
  agent_registry : json
}.

Definition observability_endpoint : string := "http://localhost:8001/events".
Definition orchestrator_endpoint : string := "http://localhost:8005/route".

Definition claude_dir (E : env) : string := path_join (home E) ".claude".
Definition config_dir (E : env) : string := path_join (claude_dir E) "config".

Definition generate_session_id (E : env) : M string :=
  timestamp <- now E ;;
  ret (substring 0 8 (md5_hexdigest E timestamp)).

Definition default_keyword_patterns : taxonomy :=
  [ ("engineering",
    [
     ("ai-engineer", ["ai"; "machine learning"; "neural"; "model"; "ml"; "artificial intelligence"]);
     ("rapid-prototyper", ["prototype"; "mvp"; "quick"; "fast"; "demo"; "rapid"]);
     ("test-writer-fixer", ["test"; "testing"; "unit"; "integration"; "bug"; "coverage"]);
     ("performance-optimizer", ["performance"; "speed"; "optimize"; "slow"; "latency"; "bundle"]);
     ("security-auditor", ["security"; "vulnerability"; "audit"; "safe"; "breach"; "exploit"]);
     ("code-reviewer", ["review"; "quality"; "standards"; "refactor"; "best practices"]);
     ("devops-automator", ["deploy"; "pipeline"; "ci/cd"; "automation"; "docker"; "kubernetes"])
    ]);
    ("product",
    [
     ("feedback-synthesizer", ["feedback"; "complaints"; "users"; "issues"; "problems"; "satisfaction"]);
     ("trend-researcher", ["trends"; "viral"; "popular"; "market"; "research"; "analysis"]);
     ("feature-prioritizer", ["priority"; "backlog"; "features"; "roadmap"; "planning"; "sprint"]);
     ("user-story-writer", ["story"; "requirements"; "specs"; "documentation"; "user needs"]);
     ("metrics-analyzer", ["metrics"; "analytics"; "kpi"; "data"; "performance"; "tracking"])
    ]);
    ("marketing",
    [
     ("growth-hacker", ["growth"; "viral"; "marketing"; "acquisition"; "conversion"; "funnel"]);
     ("tiktok-strategist", ["tiktok"; "social"; "content"; "viral"; "engagement"; "influencer"]);
     ("seo-optimizer", ["seo"; "search"; "google"; "ranking"; "optimization"; "keywords"]);
     ("brand-voice-keeper", ["brand"; "voice"; "messaging"; "tone"; "communication"; "style"]);
     ("campaign-orchestrator", ["campaign"; "marketing"; "channels"; "coordination"; "advertising"])
    ]);
    ("design",
    [
     ("ui-designer", ["ui"; "interface"; "design"; "layout"; "components"; "wireframe"]);
     ("whimsy-injector", ["whimsy"; "delight"; "fun"; "engaging"; "interactive"; "creative"]);
     ("accessibility-guardian", ["accessibility"; "a11y"; "wcag"; "inclusive"; "disability"; "screen reader"]);
     ("brand-consistency-enforcer", ["brand"; "consistency"; "design system"; "guidelines"; "standards"]);
     ("user-experience-optimizer", ["ux"; "user experience"; "flow"; "usability"; "journey"; "persona"])
    ]);
    ("project-management",
    [
     ("sprint-master", ["sprint"; "agile"; "scrum"; "ceremonies"; "planning"; "retrospective"]);
     ("risk-assessor", ["risk"; "blocker"; "dependencies"; "timeline"; "issues"; "mitigation"]);
     ("stakeholder-communicator", ["stakeholder"; "communication"; "status"; "reporting"; "updates"]);
     ("resource-allocator", ["resources"; "capacity"; "allocation"; "team"; "workload"; "bandwidth"]);
     ("deadline-enforcer", ["deadline"; "timeline"; "schedule"; "delivery"; "milestones"; "due date"])
    ]);
    ("operations",
    [
     ("workflow-optimizer", ["workflow"; "process"; "efficiency"; "optimization"; "bottleneck"; "streamline"]);
     ("documentation-maintainer", ["documentation"; "docs"; "knowledge"; "wiki"; "guide"; "manual"]);
     ("quality-assurance-coordinator", ["qa"; "quality"; "testing"; "validation"; "standards"; "compliance"]);
     ("environment-manager", ["environment"; "deployment"; "staging"; "production"; "infrastructure"]);
     ("incident-responder", ["incident"; "emergency"; "outage"; "critical"; "urgent"; "downtime"])
    ]);
    ("testing",
    [
     ("automated-tester", ["automated"; "testing"; "suite"; "coverage"; "continuous"; "regression"]);
     ("manual-tester", ["manual"; "exploratory"; "testing"; "validation"; "verification"; "user testing"]);
     ("load-tester", ["load"; "performance"; "stress"; "scalability"; "capacity"; "benchmark"]);
     ("security-tester", ["security"; "penetration"; "vulnerability"; "exploit"; "attack"; "pen test"]);
     ("compatibility-tester", ["compatibility"; "cross-platform"; "browser"; "device"; "mobile"; "responsive"])
    ])
  ].

Definition load_keyword_patterns (E : env) : M taxonomy :=
  let patterns_file := path_join (config_dir E) "keyword-patterns.json" in
  if path_exists E patterns_file then lift (load_taxonomy_file E patterns_file)
  else ret default_keyword_patterns.

Definition load_security_filters : list string :=
  [ "rm\s+-rf\s+/";
    "sudo\s+rm";
    "format\s+c:";
    "del\s+/s\s+/q";
    "DROP\s+DATABASE";
    "eval\s*\(";
    "exec\s*\(";
    "system\s*\(";
    "shell_exec";
    "passthru";
    "curl.*\|\s*sh";
    "wget.*\|\s*sh";
    "\.\.\/.*\.\.\/";
    "password\s*=\s*[" ++ dquote ++ "'][^" ++ dquote ++ "']+[" ++ dquote ++ "']";
    "secret\s*=\s*[" ++ dquote ++ "'][^" ++ dquote ++ "']+[" ++ dquote ++ "']";
    "api[_-]?key\s*=\s*[" ++ dquote ++ "'][^" ++ dquote ++ "']+[" ++ dquote ++ "']"
  ]%string.

Definition load_agent_registry (E : env) : M json :=
  let registry_file := path_join (config_dir E) "agent-registry.json" in
  if path_exists E registry_file then lift (load_json_file E registry_file)
  else ret (JObj []).

Definition init_context_db (E : env) : M unit :=
  let db_path := path_join (config_dir E) "context-memory.db" in
  lift (sqlite_connect E db_path) ;;
  db_execute E CreateTable ;;
  db_execute E CreateIndex ;;
  db_commit E.

(** [UserPromptSubmitHook()]. *)
Definition __init__ (E : env) : M hook :=
  sid <- generate_session_id E ;;
  patterns <- load_keyword_patterns E ;;
  let filters := load_security_filters in
  registry <- load_agent_registry E ;;
  init_context_db E ;;
  ret {| session_id := sid; keyword_patterns := patterns;
         security_filters := filters; agent_registry := registry |}.

(** [bool(re.search(pattern, prompt, re.IGNORECASE))]. *)
Definition pattern_matches (pattern prompt : string) : bool :=
  match re_search pattern prompt true with
  | Some b => b
  | None => false
  end.

Definition detect_security_issues (h : hook) (prompt : string) : list string :=
  fold_left
    (fun issues pattern =>
       if pattern_matches pattern prompt
       then issues ++ [("Potential security risk: " ++ pattern)%string]
       else issues)
    (security_filters h) [].

(** The body of the loop over the agents of one category. *)
Definition detect_agent (prompt_lower category : string)
    (detected : detection) (item : string * list string) : detection :=
  let '(agent_name, keywords) := item in
  let matches :=
    filter (fun keyword => contains (lower keyword) prompt_lower) keywords in
  if truthy matches then
    let detected1 :=
      match dict_get detected category with
      | None => dict_set detected category []
      | Some _ => detected
      end in
    let inner :=
      match dict_get detected1 category with
      | Some d => d
      | None => []
      end in
    dict_set detected1 category (dict_set inner agent_name matches)
  else detected.

Definition detect_agents_in (patterns : taxonomy) (prompt : string) : detection :=
  let prompt_lower := lower prompt in
  fold_left
    (fun detected (entry : string * dict (list string)) =>
       let '(category, agents) := entry in
       fold_left (detect_agent prompt_lower category) agents detected)
    patterns [].

Definition detect_agents (h : hook) (prompt : string) : detection :=
  detect_agents_in (keyword_patterns h) prompt.

Definition get_project_context (E : env) : M project_context :=
  let cwd := cwd E in
  let claude_md_path := path_join cwd "CLAUDE.md" in
  let context content :=
    {| working_directory := cwd;
       project_name := path_name cwd;
       has_package_json := path_exists E (path_join cwd "package.json");
       has_claude_md := path_exists E (path_join cwd "CLAUDE.md");
       has_local_claude := path_exists E (path_join cwd ".claude");
       git_repository := path_exists E (path_join cwd ".git");
       claude_md_content := content |} in
  if path_exists E claude_md_path then
    try_except
      (text <- lift (read_text E claude_md_path) ;;
       ret (context (Some (substring 0 1000 text))))
      (fun _ => ret (context None))
  else ret (context None).

Definition stopwords : list string :=
  ["the"; "and"; "for"; "are"; "but"; "not"; "you"; "all"; "can"; "had";
   "her"; "was"; "one"; "our"; "out"; "day"; "get"; "has"; "him"; "his";
   "how"; "man"; "new"; "now"; "old"; "see"; "two"; "way"; "who"; "boy";
   "did"; "its"; "let"; "put"; "say"; "she"; "too"; "use"].

Definition extract_keywords (E : env) (prompt : string) : list string :=
  let words :=
    match re_findall "\b\w{3,}\b" (lower prompt) with
    | Some ws => ws
    | None => []
    end in
  let keywords := filter (fun word => negb (in_strings word stopwords)) words in
  set_order E keywords.

Definition store_context (E : env) (h : hook) (prompt : string)
    (detected_agents : detection) (ctx : project_context) : M unit :=
  try_except
    (timestamp <- now E ;;
     db_execute E (Insert
       {| row_session_id := session_id h;
          row_timestamp := timestamp;
          row_user_prompt := prompt;
          row_detected_agents := detected_agents;
          row_context_keywords := extract_keywords E prompt;
          row_project_context := ctx |}) ;;
     db_commit E)
    (fun e => print_err ("Warning: Could not store context: " ++ str_exc e)).

Definition str_of_Z (z : Z) : string := NilZero.string_of_int (Z.to_int z).

Definition log_event (E : env) (event : event_data) : M pyval :=
  try_except
    (response <- post E observability_endpoint (EventBody event) ;;
     if negb (Z.eqb (status_code response) 200) then
       print_err ("Warning: Observability logging failed: "
                  ++ str_of_Z (status_code response))
     else ret tt)
    (fun e =>
       print_err ("Warning: Could not log to observability system: "
                  ++ str_exc e)) ;;
  ret PyNone.

Definition route_to_orchestrator (E : env) (h : hook) (prompt : string)
    (detected_agents : detection) (ctx : project_context) : M (option json) :=
  try_except
    (timestamp <- now E ;;
     let routing :=
       {| rt_session_id := session_id h;
          rt_user_prompt := prompt;
          rt_detected_agents := detected_agents;
          rt_project_context := ctx;
          rt_timestamp := timestamp |} in
     response <- post E orchestrator_endpoint (RoutingBody routing) ;;
     if Z.eqb (status_code response) 200 then
       body <- lift (response_json response) ;;
       ret (Some body)
     else
       print_err ("Warning: Orchestrator routing failed: "
                  ++ str_of_Z (status_code response)) ;;
       ret None)
    (fun e =>
       print_err ("Warning: Could not connect to orchestrator: "
                  ++ str_exc e) ;;
       ret None).

(** [sum(len(agents) for agents in detected_agents.values())]. *)
Definition agent_count (detected_agents : detection) : nat :=
  fold_left Nat.add (map (fun agents => List.length agents)
                         (dict_values detected_agents)) 0.

Definition enhancements_of (detected_agents : detection)
    (ctx : project_context) : list string :=
  let e0 := [] in
  let e1 := if has_claude_md ctx
            then e0 ++ ["📋 Local CLAUDE.md context available"] else e0 in
  let e2 := if git_repository ctx
            then e1 ++ ["🔄 Git repository detected"] else e1 in
  if truthy detected_agents then
    e2 ++ [("🤖 " ++ str_of_nat (agent_count detected_agents)
            ++ " specialized agents detected and available")%string]
  else e2.

Definition enhance_prompt (original_prompt : string)
    (detected_agents : detection) (ctx : project_context) : string :=
  let enhancements := enhancements_of detected_agents ctx in
  if truthy enhancements then
    let enhancement_text := join " | " enhancements in
    (original_prompt ++ newline ++ newline ++ "<!-- System Context: "
       ++ enhancement_text ++ " -->")%string
  else original_prompt.

Definition process_prompt (E : env) (h : hook) (prompt : string) : M result :=
  let security_issues := detect_security_issues h prompt in
  if truthy security_issues then
    ret (Block "Security violation detected" security_issues (session_id h))
  else
    let detected_agents := detect_agents h prompt in
    ctx <- get_project_context E ;;
    store_context E h prompt detected_agents ctx ;;
    timestamp <- now E ;;
    let event :=
      {| ev_timestamp := timestamp;
         ev_sessionId := session_id h;
         ev_eventType := "user_prompt_submit";
         ev_hookType := "user_prompt_submit";
         ev_userPrompt := prompt;
         ev_detected_agents := detected_agents;
         ev_project_context := ctx;
         ev_security_check := "passed" |} in
    log_event E event ;;
    orchestration_result <- route_to_orchestrator E h prompt detected_agents ctx ;;
    ret (Continue (session_id h) detected_agents ctx orchestration_result
           (enhance_prompt prompt detected_agents ctx)).

(** ** [main] and the process *)

Definition user_prompt_of (args : list string) : string := join " " (tl args).

Definition main (E : env) : M unit :=
  (if Nat.ltb (List.length (argv E)) 2 then
     print_err "Usage: user-prompt-submit.py <user_prompt>" ;;
     sys_exit 1%Z
   else ret tt) ;;
  let user_prompt := user_prompt_of (argv E) in
  h <- __init__ E ;;
  result <- process_prompt E h user_prompt ;;
  match result with
  | Block reason issues _ =>
      print_err ("🚫 Security Alert: " ++ reason) ;;
      for_each issues (fun issue => print_err ("   - " ++ issue)) ;;
      sys_exit 1%Z
  | Continue _ detected_agents _ _ enhanced_prompt =>
      print enhanced_prompt ;;
      if truthy detected_agents then
        let agent_summary :=
          map (fun entry : string * dict (list string) =>
                 (fst entry ++ ": " ++ join ", " (dict_keys (snd entry)))%string)
              detected_agents in
        print_err ("🎯 Agents activated: " ++ join " | " agent_summary)
      else ret tt
  end.

(** The exit status of the process: zero when [main] returns, the code of
    [sys.exit], and one, after the traceback, when an exception escapes. *)
Definition run (E : env) (w : world) : Z * world :=
  match main E w with
  | (Ok _, w') => (0%Z, w')
  | (Raise (SystemExit code), w') => (code, w')
  | (Raise (Raised (Exception cls msg)), w') =>
      (1%Z, snd (print_err ("Traceback (most recent call last): "
                            ++ cls ++ ": " ++ msg) w'))
  end.

Definition exit_status (E : env) (w : world) : Z := fst (run E w).

(** ** Vocabulary of the statements *)

(** The request that [route_to_orchestrator] sends when the clock shows
    [timestamp]. *)
Definition routing_request (h : hook) (prompt : string)
    (detected_agents : detection) (ctx : project_context)
    (timestamp : string) : http_body :=
  RoutingBody
    {| rt_session_id := session_id h;
       rt_user_prompt := prompt;
       rt_detected_agents := detected_agents;
       rt_project_context := ctx;
       rt_timestamp := timestamp |}.

(** The orchestrator gave no usable answer: the call raised, the status
    is not 200, or the body does not decode. *)
Definition routing_failed (a : answer response) : Prop :=
  match a with
  | Fails _ => True
  | Returns resp =>
      status_code resp <> 200%Z \/ exists e, response_json resp = Fails e
  end.

(** The telemetry call went through with status 200. *)
Definition posted_200 (a : answer response) : Prop :=
  exists resp, a = Returns resp /\ status_code resp = 200%Z.

(** The keyword is listed in [detected[category][agent]]. *)
Definition keyword_detected (detected : detection)
    (category agent keyword : string) : Prop :=
  exists agents matches,
    dict_get detected category = Some agents /\
    dict_get agents agent = Some matches /\
    In keyword matches.

(** The pair is a key path of [detected]. *)
Definition agent_detected (detected : detection)
    (category agent : string) : Prop :=
  exists agents matches,
    dict_get detected category = Some agents /\
    dict_get agents agent = Some matches.

(** The annotation that [enhance_prompt] appends. *)
Definition annotation (detected_agents : detection) (ctx : project_context)
  : string :=
  (newline ++ newline ++ "<!-- System Context: "
     ++ join " | " (enhancements_of detected_agents ctx) ++ " -->")%string.

End Hook.

(* ===================================================================== *)
(** * The detection loop, entry by entry *)
(* ===================================================================== *)

(** The two nested loops of [detect_agents] visit one (category, agent,
    keywords) entry after the other; the definitions below name the
    entries, one visit, and what the visits leave behind. *)
Module Detect.
Import Text Py Hook.

(** The keywords of one agent that are in the prompt. *)
Definition matches_of (prompt_lower : string) (keywords : list string)
  : list string :=
  filter (fun keyword => contains (lower keyword) prompt_lower) keywords.

(** [detected[category][agent]], when both keys are there. *)
Definition get2 (d : detection) (category agent : string)
  : option (list string) :=
  match dict_get d category with
  | Some inner => dict_get inner agent
  | None => None
  end.

(** The taxonomy as the loop visits it: one entry per category and
    agent. *)
Definition triples (T : taxonomy) : list (string * (string * list string)) :=
  flat_map (fun entry => map (fun item => (fst entry, item)) (snd entry)) T.

Definition visit (pl : string) (d : detection)
    (t : string * (string * list string)) : detection :=
  detect_agent pl (fst t) d (snd t).

(** What is stored is never empty: no category without agents, no agent
    without keywords. *)
Definition populated (d : detection) : Prop :=
  forall c inner, dict_get d c = Some inner ->
    inner <> [] /\ forall a ms, dict_get inner a = Some ms -> ms <> [].

(** The last visit of a key path that matched a keyword, if any. *)
Fixpoint last_hit (pl : string) (L : list (string * (string * list string)))
    (c a : string) : option (list string) :=
  match L with
  | [] => None
  | (c0, (a0, kws)) :: L' =>
      match last_hit pl L' c a with
      | Some ms => Some ms
      | None =>
          if truthy (matches_of pl kws) && String.eqb c c0 && String.eqb a a0
          then Some (matches_of pl kws)
          else None
      end
  end.

(** The key paths of the visits. *)
Definition key_of (t : string * (string * list string)) : string * string :=
  (fst t, fst (snd t)).

End Detect.

(* ===================================================================== *)
(** * Sample invocations *)
(* ===================================================================== *)

(** Concrete worlds and oracles, on which the statements below are
    tried. *)
Module Demo.
Import Text Re Py Hook.

Definition fresh_world : world :=
  {| db_rows := []; db_committed := []; http_requests := [];
     stdout := []; stderr := []; clock_reads := 0 |}.

Definition refused : exception :=
  Exception "ConnectionError" "connection refused".

Definition bad_json : exception :=
  Exception "JSONDecodeError" "Expecting value: line 1 column 1 (char 0)".

Definition no_such_file : exception :=
  Exception "FileNotFoundError" "No such file or directory".

Definition services_down : string -> http_body -> answer response :=
  fun _ _ => Fails refused.

(** Both services answer 200; the orchestrator's body is an object. *)
Definition services_up : string -> http_body -> answer response :=
  fun _ _ =>
    Returns {| status_code := 200;
               response_json := Returns (JObj [("route", JStr "direct")]) |}.

(** An oracle: the command line, the paths that exist, the text of the
    instructions file, and how the services answer.  Files that exist in
    the configuration directory do not decode. *)
Definition make_env (args : list string) (present : list string)
    (claude_md : answer string)
    (services : string -> http_body -> answer response) : env :=
  {| argv := args;
     clock := fun n => ("2024-01-01T00:00:0" ++ str_of_nat n)%string;
     md5_hexdigest := fun _ => "0123456789abcdef0123456789abcdef";
     home := "/home/dev";
     cwd := "/work/project";
     path_exists := fun p => in_strings p present;
     read_text := fun _ => claude_md;
     load_taxonomy_file := fun _ => Fails bad_json;
     load_json_file := fun _ => Fails bad_json;
     sqlite_connect := fun _ => Returns tt;
     sqlite_execute := fun _ => Returns tt;
     sqlite_commit := Returns tt;
     requests_post := services;
     set_order := nodup string_dec |}.

Definition script : string := "user-prompt-submit.py".

(** A bare checkout under version control, nothing configured, the
    services unreachable. *)
Definition plain_env (args : list string) : env :=
  make_env args ["/work/project/.git"] (Fails no_such_file) services_down.

(** The same with both services answering. *)
Definition served_env (args : list string) : env :=
  make_env args ["/work/project/.git"] (Fails no_such_file) services_up.

(** A keyword file is there and does not decode. *)
Definition broken_config_env (args : list string) : env :=
  make_env args
    ["/home/dev/.claude/config/keyword-patterns.json";
     "/home/dev/.claude/config/agent-registry.json"]
    (Fails no_such_file) services_down.

Fixpoint repeat_string (s : string) (n : nat) : string :=
  match n with
  | O => EmptyString
  | S k => (s ++ repeat_string s k)%string
  end.

(** Instructions of 2000 characters: 1000 times [a], then 1000 times
    [b]. *)
Definition long_instructions : string :=
  (repeat_string "a" 1000 ++ repeat_string "b" 1000)%string.

Definition instructed_env (args : list string) : env :=
  make_env args ["/work/project/CLAUDE.md"] (Returns long_instructions)
    services_down.

(** The instructions file is there and cannot be decoded. *)
Definition undecodable_env (args : list string) : env :=
  make_env args ["/work/project/CLAUDE.md"]
    (Fails (Exception "UnicodeDecodeError" "invalid start byte"))
    services_down.

(** Nothing at all in the working directory. *)
Definition bare_env (args : list string) : env :=
  make_env args [] (Fails no_such_file) services_down.

(** The hook as [__init__] builds it without configuration files. *)
Definition default_hook : hook :=
  {| session_id := "01234567";
     keyword_patterns := default_keyword_patterns;
     security_filters := load_security_filters;
     agent_registry := JObj [] |}.

Definition sample_event : event_data :=
  {| ev_timestamp := "2024-01-01T00:00:00";
     ev_sessionId := "01234567";
     ev_eventType := "user_prompt_submit";
     ev_hookType := "user_prompt_submit";
     ev_userPrompt := "hello";
     ev_detected_agents := [];
     ev_project_context :=
       {| working_directory := "/work/project"; project_name := "project";
          has_package_json := false; has_claude_md := false;
          has_local_claude := false; git_repository := true;
          claude_md_content := None |};
     ev_security_check := "passed" |}.

End Demo.

(* ===================================================================== *)
(** * What a pattern accepts *)
(* ===================================================================== *)

(** The texts a pattern without word boundary accepts, said without a
    matcher: one character of the class per single atom, a stretch of
    characters of the class within the bounds per repetition. *)
Module ReSpec.
Import Text Re.






(** A run of at least three word characters of a text, with an edge on
    both sides. *)
Definition word_run (w s : string) : Prop :=
  all_chars is_word w = true /\
  3 <= String.length w /\
  exists pre post,
    s = (pre ++ w ++ post)%string /\
    word_edge (last_or None pre) = true /\
    word_edge (first_char post) = true.

(** While [findall] skips over the rest of a match of the word pattern:
    the character before is a word character and so are the next [skip]
    ones. *)
Definition inside_run (prev : option ascii) (s : string) (skip : nat) : Prop :=
  skip = 0 \/
  (word_edge prev = false /\
   exists run rest,
     s = (run ++ rest)%string /\
     String.length run = skip /\
     all_chars is_word run = true).

End ReSpec.

(* ===================================================================== *)
(** * The detection result, said at once *)
(* ===================================================================== *)

(** The taxonomy with every keyword list cut down to the keywords that
    are in the prompt, and with the agents and categories left empty
    taken out; the order is that of the taxonomy. *)
Module DetectSpec.
Import Text Py Hook Detect.

Definition matched_agents (pl : string) (agents : dict (list string))
  : dict (list string) :=
  flat_map
    (fun item : string * list string =>
       if truthy (matches_of pl (snd item))
       then [(fst item, matches_of pl (snd item))]
       else [])
    agents.

Definition pruned (pl : string) (T : taxonomy) : detection :=
  flat_map
    (fun entry : string * dict (list string) =>
       if truthy (matched_agents pl (snd entry))
       then [(fst entry, matched_agents pl (snd entry))]
       else [])
    T.

(** The entries of the taxonomy with a keyword in the prompt. *)
Definition hits (pl : string) (T : taxonomy)
  : list (string * (string * list string)) :=
  filter (fun t => truthy (matches_of pl (snd (snd t)))) (triples T).

End DetectSpec.

(* ===================================================================== *)
(** * What an invocation leaves behind *)
(* ===================================================================== *)

Module Effects.
Import Text Re Py Hook.

(** The table after is the table before with at most one row added at
    the end. *)
Definition grows_by_at_most_one (before after : list context_row) : Prop :=
  exists added, after = before ++ added /\ List.length added <= 1.

(** The row that [store_context] inserts when the clock shows
    [timestamp]. *)
Definition stored_row (E : env) (h : hook) (prompt : string)
    (detected_agents : detection) (ctx : project_context)
    (timestamp : string) : context_row :=
  {| row_session_id := session_id h;
     row_timestamp := timestamp;
     row_user_prompt := prompt;
     row_detected_agents := detected_agents;
     row_context_keywords := extract_keywords E prompt;
     row_project_context := ctx |}.

(** The event that [process_prompt] reports. *)
Definition prompt_event (h : hook) (prompt : string)
    (detected_agents : detection) (ctx : project_context)
    (timestamp : string) : event_data :=
  {| ev_timestamp := timestamp;
     ev_sessionId := session_id h;
     ev_eventType := "user_prompt_submit";
     ev_hookType := "user_prompt_submit";
     ev_userPrompt := prompt;
     ev_detected_agents := detected_agents;
     ev_project_context := ctx;
     ev_security_check := "passed" |}.

(** Two oracles show the same working directory. *)
Definition same_project (E1 E2 : env) : Prop :=
  cwd E1 = cwd E2 /\
  (forall p, path_exists E1 p = path_exists E2 p) /\
  (forall p, read_text E1 p = read_text E2 p).

Definition answered {A : Type} (r : answer A) : bool :=
  match r with
  | Returns _ => true
  | Fails _ => false
  end.

(** Everything the constructor needs goes well: each configuration file
    is absent or decodes, the store opens, and its table, index and
    commit succeed. *)
Definition constructible (E : env) : bool :=
  let patterns_file := path_join (config_dir E) "keyword-patterns.json" in
  let registry_file := path_join (config_dir E) "agent-registry.json" in
  (negb (path_exists E patterns_file)
   || answered (load_taxonomy_file E patterns_file)) &&
  (negb (path_exists E registry_file)
   || answered (load_json_file E registry_file)) &&
  answered (sqlite_connect E (path_join (config_dir E) "context-memory.db")) &&
  answered (sqlite_execute E CreateTable) &&
  answered (sqlite_execute E CreateIndex) &&
  answered (sqlite_commit E).




End Effects.

(* ===================================================================== *)
(** * Comparing two results *)
(* ===================================================================== *)

Module Compare.
Import Py Hook.

(** Two results of [process_prompt] that differ at most in what the
    orchestrator answered. *)
Definition same_decision (r1 r2 : result) : Prop :=
  match r1, r2 with
  | Block reason1 issues1 sid1, Block reason2 issues2 sid2 =>
      reason1 = reason2 /\ issues1 = issues2 /\ sid1 = sid2
  | Continue sid1 d1 ctx1 _ enhanced1, Continue sid2 d2 ctx2 _ enhanced2 =>
      sid1 = sid2 /\ d1 = d2 /\ ctx1 = ctx2 /\ enhanced1 = enhanced2
  | _, _ => False
  end.

End Compare.

(* ===================================================================== *)
(** * Facts about text *)
(* ===================================================================== *)

Module TextFacts.
Import Text.

Lemma sapp_assoc (a b c : string) : ((a ++ b) ++ c = a ++ (b ++ c))%string.
Proof. induction a as [|x a IH]; simpl; [reflexivity | now rewrite IH]. Qed.

Lemma sapp_nil_r (a : string) : (a ++ "" = a)%string.
Proof. induction a as [|x a IH]; simpl; [reflexivity | now rewrite IH]. Qed.

Lemma slength_app (a b : string) :
  String.length (a ++ b) = String.length a + String.length b.
Proof. induction a as [|x a IH]; simpl; [reflexivity | now rewrite IH]. Qed.

Lemma sapp_inv_head (a b c : string) : (a ++ b = a ++ c)%string -> b = c.
Proof.
  induction a as [|x a IH]; simpl; intros H; [exact H|].
  injection H as H. now apply IH.
Qed.

Lemma prefix_iff (a b : string) :
  prefix a b = true <-> exists r, b = (a ++ r)%string.
Proof.
  revert b. induction a as [|x a IH]; intros b.
  - simpl. destruct b; split; intros _; try reflexivity; eexists; reflexivity.
  - destruct b as [|y b]; simpl.
    + split; [discriminate | intros [r H]; discriminate].
    + destruct (ascii_dec x y) as [->|N].
      * rewrite IH. split; intros [r H]; exists r.
        -- now rewrite H.
        -- now injection H.
      * split; [discriminate | intros [r H]; congruence].
Qed.

Lemma contains_iff (needle hay : string) :
  contains needle hay = true <-> occurs_in needle hay.
Proof.
  unfold occurs_in. induction hay as [|c hay IH].
  - cbn [contains]. rewrite orb_false_r, prefix_iff. split.
    + intros [r H]. exists EmptyString, r. exact H.
    + intros [pre [post H]]. destruct pre; [now exists post|discriminate].
  - cbn [contains]. rewrite orb_true_iff, prefix_iff, IH. split.
    + intros [[r H] | [pre [post H]]].
      * exists EmptyString, r. exact H.
      * exists (String c pre), post. simpl. now rewrite H.
    + intros [pre [post H]]. destruct pre as [|x pre].
      * left. now exists post.
      * right. simpl in H. injection H as _ H. now exists pre, post.
Qed.

Lemma contains_false_iff (needle hay : string) :
  contains needle hay = false <-> ~ occurs_in needle hay.
Proof.
  rewrite <- contains_iff. destruct (contains needle hay); split; intros H;
    try discriminate; try reflexivity; try (intros D; discriminate).
  now elim H.
Qed.

Lemma lower_app (a b : string) : lower (a ++ b) = (lower a ++ lower b)%string.
Proof. induction a as [|x a IH]; simpl; [reflexivity | now rewrite IH]. Qed.

Lemma lower_length (s : string) : String.length (lower s) = String.length s.
Proof. induction s as [|x s IH]; simpl; [reflexivity | now rewrite IH]. Qed.

Lemma lower_char_idem (c : ascii) : lower_char (lower_char c) = lower_char c.
Proof.
  destruct c as [[] [] [] [] [] [] [] []]; reflexivity.
Qed.

Lemma lower_idem (s : string) : lower (lower s) = lower s.
Proof.
  induction s as [|x s IH]; simpl; [reflexivity|].
  now rewrite lower_char_idem, IH.
Qed.

(** A piece of a lowercased text is the lowercased form of a piece of
    the text. *)
Lemma lower_split (s a b : string) :
  lower s = (a ++ b)%string ->
  exists a' b', s = (a' ++ b')%string /\ lower a' = a /\ lower b' = b.
Proof.
  revert s. induction a as [|x a IH]; intros s H.
  - exists EmptyString, s. simpl in *. auto.
  - destruct s as [|y s]; simpl in H; [discriminate|].
    injection H as Hx H. destruct (IH _ H) as [a' [b' [E [Ha Hb]]]].
    exists (String y a'), b'. simpl. now rewrite E, Hx, Ha, Hb.
Qed.

Lemma lower_occurs (w s : string) :
  occurs_in w (lower s) -> exists u, occurs_in u s /\ lower u = w.
Proof.
  intros [pre [post H]].
  destruct (lower_split _ _ _ H) as [pre' [r [E [_ Hr]]]].
  destruct (lower_split _ _ _ Hr) as [u [post' [E' [Hu _]]]].
  exists u. split; [|exact Hu]. exists pre', post'. now rewrite E, E'.
Qed.

(** A piece of a lowercased text is its own lowercased form. *)
Lemma lower_piece_fixed (w s : string) :
  occurs_in w (lower s) -> lower w = w.
Proof.
  intros H. destruct (lower_occurs w s H) as [u [_ Hu]].
  rewrite <- Hu. apply lower_idem.
Qed.

Lemma in_strings_iff (x : string) (l : list string) :
  in_strings x l = true <-> In x l.
Proof.
  unfold in_strings. rewrite existsb_exists. split.
  - intros [y [Hy E]]. apply String.eqb_eq in E. now subst.
  - intros H. exists x. split; [exact H | apply String.eqb_refl].
Qed.

Lemma distinct_NoDup (l : list string) : distinct l = true -> NoDup l.
Proof.
  induction l as [|x l IH]; simpl; intros H; constructor.
  - apply andb_true_iff in H. destruct H as [H _].
    apply negb_true_iff in H. intros I. apply in_strings_iff in I. congruence.
  - apply IH. apply andb_true_iff in H. tauto.
Qed.

End TextFacts.

(* ===================================================================== *)
(** * Facts about dictionaries *)
(* ===================================================================== *)

Module DictFacts.
Import Py.

Section Dict.
Context {V : Type}.
Implicit Types (d : dict V) (k : string) (v : V).

Lemma dict_get_set d k v k' :
  dict_get (dict_set d k v) k' =
  if String.eqb k' k then Some v else dict_get d k'.
Proof.
  induction d as [|[k0 v0] d IH]; simpl.
  - destruct (String.eqb_spec k' k); reflexivity.
  - destruct (String.eqb_spec k k0) as [->|N]; simpl.
    + destruct (String.eqb_spec k' k0); reflexivity.
    + destruct (String.eqb_spec k' k0) as [->|N'].
      * destruct (String.eqb_spec k0 k); [congruence | reflexivity].
      * exact IH.
Qed.

Lemma dict_get_In d k v : dict_get d k = Some v -> In (k, v) d.
Proof.
  induction d as [|[k0 v0] d IH]; simpl; [discriminate|].
  destruct (String.eqb_spec k k0) as [->|N]; intros H.
  - injection H as ->. now left.
  - right. now apply IH.
Qed.

Lemma dict_get_unique d k v :
  dict_wf d = true -> In (k, v) d -> dict_get d k = Some v.
Proof.
  intros W. apply TextFacts.distinct_NoDup in W. revert W.
  unfold dict_keys.
  induction d as [|[k0 v0] d IH]; simpl; intros W H; [contradiction|].
  inversion W as [|? ? Hn W']; subst.
  destruct H as [H|H].
  - injection H as -> ->. now rewrite String.eqb_refl.
  - destruct (String.eqb_spec k k0) as [->|N].
    + elim Hn. change k0 with (fst (k0, v)). now apply in_map.
    + now apply IH.
Qed.

Lemma dict_set_not_nil d k v : dict_set d k v <> [].
Proof.
  destruct d as [|[k0 v0] d]; simpl; [discriminate|].
  destruct (String.eqb k k0); discriminate.
Qed.

End Dict.

Lemma truthy_true_list {A : Type} (l : list A) : truthy l = true <-> l <> [].
Proof. destruct l; simpl; split; congruence. Qed.

Lemma truthy_false_list {A : Type} (l : list A) : truthy l = false <-> l = [].
Proof. destruct l; simpl; split; congruence. Qed.

End DictFacts.

(* ===================================================================== *)
(** * Facts about matching *)
(* ===================================================================== *)

Module ReFacts.
Import Text Re TextFacts.

Lemma all_chars_app (p : ascii -> bool) (a b : string) :
  all_chars p (a ++ b) = all_chars p a && all_chars p b.
Proof.
  induction a as [|x a IH]; simpl; [reflexivity|].
  now rewrite IH, andb_assoc.
Qed.

(** What a greedy repetition matched: the characters it kept, all of the
    class and at least [lo] with the [n] before, then what the rest of
    the pattern matched after them. *)
Lemma rep_greedy_some k ok lo hi :
  forall s n prev m,
    rep_greedy k ok lo hi n prev s = Some m ->
    exists taken rest m',
      s = (taken ++ rest)%string /\
      all_chars ok taken = true /\
      lo <= n + String.length taken /\
      k (last_or prev taken) rest = Some m' /\
      m = (taken ++ m')%string.
Proof.
  assert (Stop : forall s n prev m,
    (if Nat.leb lo n then k prev s else None) = Some m ->
    exists taken rest m',
      s = (taken ++ rest)%string /\ all_chars ok taken = true /\
      lo <= n + String.length taken /\
      k (last_or prev taken) rest = Some m' /\ m = (taken ++ m')%string).
  { intros s n prev m H. destruct (Nat.leb_spec lo n) as [L|L]; [|discriminate].
    exists EmptyString, s, m. simpl. repeat split; auto. lia. }
  induction s as [|a t IH]; intros n prev m H.
  - apply Stop. exact H.
  - cbn [rep_greedy] in H.
    destruct (below n hi && ok a) eqn:T; [|now apply Stop].
    destruct (rep_greedy k ok lo hi (S n) (Some a) t) as [m0|] eqn:R;
      [|now apply Stop].
    injection H as <-.
    destruct (IH _ _ _ R) as [taken [rest [m' [E [A [L [K M]]]]]]].
    exists (String a taken), rest, m'. simpl.
    apply andb_true_iff in T. destruct T as [_ T].
    rewrite T, A, E, M. repeat split; auto. lia.
Qed.


Lemma last_or_word (p : ascii -> bool) (s : string) (prev : option ascii) :
  s <> EmptyString -> all_chars p s = true ->
  exists c, last_or prev s = Some c /\ p c = true.
Proof.
  revert prev. induction s as [|x s IH]; intros prev N A; [congruence|].
  simpl in A. apply andb_true_iff in A. destruct A as [Px A].
  destruct s as [|y s].
  - exists x. simpl. auto.
  - cbn [last_or]. apply (IH (Some x)); [discriminate | exact A].
Qed.

Lemma word_pattern_compiles : re_compile "\b\w{3,}\b" = Some word_pattern.
Proof. reflexivity. Qed.

(** A match of the word pattern is a run of at least three word
    characters with an edge on both sides. *)
Lemma word_match (prev : option ascii) (s m : string) :
  match_here false word_pattern prev s = Some m ->
  exists rest,
    s = (m ++ rest)%string /\
    all_chars is_word m = true /\
    3 <= String.length m /\
    word_edge prev = true /\
    word_edge (first_char rest) = true.
Proof.
  unfold word_pattern. cbn [match_here]. intros H.
  destruct (at_boundary prev s) eqn:B; [|discriminate].
  destruct (rep_greedy_some _ _ _ _ _ _ _ _ H)
    as [taken [rest [m' [E [A [L [K ->]]]]]]].
  destruct (at_boundary (last_or prev taken) rest) eqn:B'; [|discriminate].
  injection K as <-. rewrite sapp_nil_r. exists rest.
  simpl in L. change (cmatch false CWord) with is_word in A.
  destruct taken as [|x taken]; [simpl in L; lia|].
  destruct (last_or_word is_word (String x taken) prev) as [c [Hc Wc]];
    [discriminate | exact A |].
  repeat split; auto.
  - subst s. simpl in A. apply andb_true_iff in A. destruct A as [Wx _].
    unfold at_boundary in B. simpl in B. rewrite Wx in B.
    destruct prev as [q|]; simpl in *; [|reflexivity].
    destruct (is_word q); [discriminate | reflexivity].
  - rewrite Hc in B'. unfold at_boundary in B'. rewrite Wc in B'.
    destruct rest as [|y rest]; simpl in *; [reflexivity|].
    destruct (is_word y); [discriminate | reflexivity].
Qed.

(** Every match that [findall] lists starts at some position of the
    text and is the match found there. *)
Lemma findall_from_elem ic p :
  forall s prev skip m,
    In m (findall_from ic p prev s skip) ->
    exists pre post,
      s = (pre ++ post)%string /\
      match_here ic p (last_or prev pre) post = Some m.
Proof.
  induction s as [|a t IH]; intros prev skip m H.
  - destruct skip as [|k]; simpl in H; [|contradiction].
    destruct (match_here ic p prev EmptyString) as [m0|] eqn:R;
      simpl in H; [|contradiction].
    destruct H as [<-|[]]. exists EmptyString, EmptyString. simpl. auto.
  - assert (Next : forall k, In m (findall_from ic p (Some a) t k) ->
      exists pre post, String a t = (pre ++ post)%string /\
        match_here ic p (last_or prev pre) post = Some m).
    { intros k Hk. destruct (IH _ _ _ Hk) as [pre [post [E R]]].
      exists (String a pre), post. simpl. now rewrite E. }
    destruct skip as [|k]; cbn [findall_from] in H; [|now apply (Next k)].
    destruct (match_here ic p prev (String a t)) as [m0|] eqn:R.
    + destruct H as [<-|H]; [|now apply (Next _ H)].
      exists EmptyString, (String a t). simpl. auto.
    + now apply (Next 0).
Qed.

(** The words [extract_keywords] starts from: runs of at least three word
    characters of the text, each between two edges. *)
Lemma findall_words (s w : string) (ws : list string) :
  re_findall "\b\w{3,}\b" s = Some ws -> In w ws ->
  all_chars is_word w = true /\
  3 <= String.length w /\
  exists pre post,
    s = (pre ++ w ++ post)%string /\
    word_edge (last_or None pre) = true /\
    word_edge (first_char post) = true.
Proof.
  unfold re_findall. rewrite word_pattern_compiles. simpl option_map.
  intros H Hin. injection H as <-.
  destruct (findall_from_elem _ _ _ _ _ _ Hin) as [pre [post [E R]]].
  destruct (word_match _ _ _ R) as [rest [E' [A [L [Eb Ea]]]]].
  repeat split; auto. exists pre, rest. rewrite E, E'. auto.
Qed.

End ReFacts.

(* ===================================================================== *)
(** * The steps of the pipeline *)
(* ===================================================================== *)

Module HookFacts.
Import Text Re Py Hook TextFacts DictFacts ReFacts.
Local Open Scope py_scope.

Ltac step_m :=
  unfold bind, ret, lift, raise, try_except, print_err, print, now, post,
    db_execute, db_commit, sys_exit; cbn [fst snd].

Lemma bind_ok {A B : Type} (c : M A) (k : A -> M B) (w w' : world) (a : A) :
  c w = (Ok a, w') -> bind c k w = k a w'.
Proof. intros H. unfold bind. now rewrite H. Qed.


Lemma app_one_neq {A : Type} (l : list A) (x : A) : l ++ [x] <> l.
Proof.
  intros H. apply (f_equal (@List.length A)) in H.
  rewrite length_app in H. simpl in H. lia.
Qed.

(** The probe never raises and leaves the world as it is. *)
Lemma get_project_context_returns (E : env) (w : world) :
  exists ctx,
    get_project_context E w = (Ok ctx, w) /\
    has_claude_md ctx = path_exists E (path_join (cwd E) "CLAUDE.md") /\
    git_repository ctx = path_exists E (path_join (cwd E) ".git") /\
    claude_md_content ctx =
      (if path_exists E (path_join (cwd E) "CLAUDE.md") then
         match read_text E (path_join (cwd E) "CLAUDE.md") with
         | Returns text => Some (substring 0 1000 text)
         | Fails _ => None
         end
       else None).
Proof.
  unfold get_project_context.
  destruct (path_exists E (path_join (cwd E) "CLAUDE.md")) eqn:X.
  - step_m. destruct (read_text E (path_join (cwd E) "CLAUDE.md")) as [text|e];
      eexists; (split; [reflexivity|]); cbn; rewrite ?X; auto.
  - step_m. eexists. split; [reflexivity|]. cbn. rewrite ?X. auto.
Qed.

(** The store step never raises and sends nothing. *)
Lemma store_context_returns (E : env) (h : hook) (P : string)
    (d : detection) (ctx : project_context) (w : world) :
  exists w',
    store_context E h P d ctx w = (Ok tt, w') /\
    http_requests w' = http_requests w /\
    stdout w' = stdout w.
Proof.
  unfold store_context. step_m.
  destruct (sqlite_execute E _) as [[]|e]; cbn.
  - destruct (sqlite_commit E) as [[]|e]; cbn; eexists; split;
      try reflexivity; cbn; auto.
  - eexists; split; try reflexivity; cbn; auto.
Qed.

(** The telemetry step: what it returns and what it leaves behind. *)
Lemma log_event_returns (E : env) (ev : event_data) (w : world) :
  exists w',
    log_event E ev w = (Ok PyNone, w') /\
    http_requests w' =
      http_requests w ++ [(observability_endpoint, EventBody ev)] /\
    stdout w' = stdout w /\
    db_rows w' = db_rows w /\
    (stderr w' = stderr w <->
     posted_200 (requests_post E observability_endpoint (EventBody ev))) /\
    (~ posted_200 (requests_post E observability_endpoint (EventBody ev)) ->
     exists warning, stderr w' = stderr w ++ [warning]).
Proof.
  unfold log_event, posted_200. step_m.
  destruct (requests_post E observability_endpoint (EventBody ev))
    as [resp|e]; cbn.
  - destruct (Z.eqb_spec (status_code resp) 200) as [S|S]; cbn;
      eexists; (split; [reflexivity|]); cbn; repeat split; auto.
    + intros _. now exists resp.
    + intros N. elim N. now exists resp.
    + intros H. now apply app_one_neq in H.
    + intros [r [R S']]. injection R as <-. contradiction.
    + intros _. eexists. reflexivity.
  - eexists; (split; [reflexivity|]); cbn; repeat split; auto.
    + intros H. now apply app_one_neq in H.
    + intros [r [R _]]. discriminate.
    + intros _. eexists. reflexivity.
Qed.

(** The routing step never raises; its result is read off the answer to
    the one request it sends. *)
Lemma route_returns (E : env) (h : hook) (P : string) (d : detection)
    (ctx : project_context) (w : world) :
  let request := routing_request h P d ctx (clock E (clock_reads w)) in
  exists w',
    route_to_orchestrator E h P d ctx w =
      (Ok match requests_post E orchestrator_endpoint request with
          | Returns resp =>
              if Z.eqb (status_code resp) 200 then
                match response_json resp with
                | Returns body => Some body
                | Fails _ => None
                end
              else None
          | Fails _ => None
          end, w') /\
    http_requests w' = http_requests w ++ [(orchestrator_endpoint, request)] /\
    stdout w' = stdout w /\
    db_rows w' = db_rows w.
Proof.
  unfold route_to_orchestrator, routing_request. step_m.
  destruct (requests_post E orchestrator_endpoint _) as [resp|e]; cbn.
  - destruct (Z.eqb (status_code resp) 200); cbn.
    + destruct (response_json resp) as [body|e]; cbn;
        eexists; (split; [reflexivity|]); cbn; auto.
    + eexists; (split; [reflexivity|]); cbn; auto.
  - eexists; (split; [reflexivity|]); cbn; auto.
Qed.

Lemma route_failed_none (a : answer response) :
  routing_failed a ->
  match a with
  | Returns resp =>
      if Z.eqb (status_code resp) 200 then
        match response_json resp with
        | Returns body => Some body
        | Fails _ => None
        end
      else None
  | Fails _ => None
  end = None.
Proof.
  destruct a as [resp|e]; simpl; [|reflexivity].
  intros [S|[e J]].
  - destruct (Z.eqb_spec (status_code resp) 200); [contradiction|reflexivity].
  - rewrite J. now destruct (Z.eqb (status_code resp) 200).
Qed.

(** A prompt that passes the filter goes through every step, whatever
    the store and the services do, and comes out as [continue]. *)
Lemma process_prompt_continues (E : env) (h : hook) (P : string) (w : world) :
  detect_security_issues h P = [] ->
  exists ctx request w',
    get_project_context E w = (Ok ctx, w) /\
    process_prompt E h P w =
      (Ok (Continue (session_id h) (detect_agents h P) ctx
             match requests_post E orchestrator_endpoint request with
             | Returns resp =>
                 if Z.eqb (status_code resp) 200 then
                   match response_json resp with
                   | Returns body => Some body
                   | Fails _ => None
                   end
                 else None
             | Fails _ => None
             end
             (enhance_prompt P (detect_agents h P) ctx)), w').
Proof.
  intros Clean. unfold process_prompt. rewrite Clean. cbn [truthy].
  destruct (get_project_context_returns E w) as [ctx [G _]].
  exists ctx. rewrite (bind_ok _ _ _ _ _ G).
  destruct (store_context_returns E h P (detect_agents h P) ctx w)
    as [w1 [S _]].
  rewrite (bind_ok _ _ _ _ _ S).
  unfold bind at 1. unfold now at 1.
  match goal with
  | |- context [bind (log_event E ?ev) _ ?w2] =>
      destruct (log_event_returns E ev w2) as [w3 [L _]];
      rewrite (bind_ok _ _ _ _ _ L)
  end.
  destruct (route_returns E h P (detect_agents h P) ctx w3) as [w4 [R _]].
  rewrite (bind_ok _ _ _ _ _ R). unfold ret.
  eexists. eexists. split; [exact G | reflexivity].
Qed.

End HookFacts.

(* ===================================================================== *)
(** * Agent detection *)
(* ===================================================================== *)

Module DetectFacts.
Import Text Re Py Hook Detect TextFacts DictFacts.

Lemma detect_agents_as_visits (T : taxonomy) (P : string) :
  detect_agents_in T P = fold_left (visit (lower P)) (triples T) [].
Proof.
  unfold detect_agents_in, triples. generalize (@nil (string * dict (list string))).
  induction T as [|[c agents] T IH]; intros d; [reflexivity|].
  cbn [fold_left flat_map fst snd]. rewrite fold_left_app, <- IH.
  f_equal. clear. revert d.
  induction agents as [|item agents IH]; intros d; [reflexivity|].
  cbn [fold_left map]. now rewrite IH.
Qed.

(** One visit: the entry of its own key path is written when a keyword
    matched, and nothing else changes. *)
Lemma get2_visit (pl : string) (d : detection) (c a : string)
    (kws : list string) (c' a' : string) :
  get2 (visit pl d (c, (a, kws))) c' a' =
  if truthy (matches_of pl kws) && String.eqb c' c && String.eqb a' a
  then Some (matches_of pl kws)
  else get2 d c' a'.
Proof.
  unfold visit, detect_agent, get2. cbn [fst snd].
  fold (matches_of pl kws).
  destruct (truthy (matches_of pl kws)); [|reflexivity].
  cbn [andb]. rewrite dict_get_set.
  destruct (String.eqb_spec c' c) as [->|N]; cbn [andb].
  - destruct (dict_get d c) as [inner|] eqn:G.
    + rewrite G, dict_get_set. now destruct (String.eqb a' a).
    + rewrite dict_get_set, dict_get_set, String.eqb_refl.
      now destruct (String.eqb a' a).
  - destruct (dict_get d c) as [inner|] eqn:G; [reflexivity|].
    rewrite dict_get_set. now destruct (String.eqb_spec c' c).
Qed.

Lemma visit_no_match (pl : string) (d : detection)
    (t : string * (string * list string)) :
  matches_of pl (snd (snd t)) = [] -> visit pl d t = d.
Proof.
  destruct t as [c [a kws]]. unfold visit, detect_agent. cbn [fst snd].
  fold (matches_of pl kws). now intros ->.
Qed.

(** A category is a key after a visit when it was one before or the
    visit wrote under it. *)
Lemma dict_get_visit_none (pl : string) (d : detection) (c a : string)
    (kws : list string) (c' : string) :
  dict_get (visit pl d (c, (a, kws))) c' = None <->
  dict_get d c' = None /\ (truthy (matches_of pl kws) && String.eqb c' c = false).
Proof.
  unfold visit, detect_agent. cbn [fst snd]. fold (matches_of pl kws).
  destruct (truthy (matches_of pl kws)); cbn [andb]; [|tauto].
  rewrite dict_get_set.
  destruct (String.eqb_spec c' c) as [->|N].
  - split; [discriminate | intros [_ H]; discriminate].
  - destruct (dict_get d c) as [inner|] eqn:G; [tauto|].
    rewrite dict_get_set. destruct (String.eqb_spec c' c); [contradiction|tauto].
Qed.

Lemma populated_visit (pl : string) (d : detection)
    (t : string * (string * list string)) :
  populated d -> populated (visit pl d t).
Proof.
  destruct t as [c [a kws]]. intros I c' inner'.
  unfold visit, detect_agent. cbn [fst snd]. fold (matches_of pl kws).
  destruct (truthy (matches_of pl kws)) eqn:Tm; [|apply I].
  apply truthy_true_list in Tm.
  rewrite dict_get_set. destruct (String.eqb_spec c' c) as [->|N].
  - intros H. injection H as <-. split; [apply dict_set_not_nil|].
    intros a' ms. rewrite dict_get_set.
    destruct (String.eqb a' a); [now intros [= <-]|].
    destruct (dict_get d c) as [inner|] eqn:G.
    + rewrite G. apply (I c inner G).
    + rewrite dict_get_set, String.eqb_refl. simpl. discriminate.
  - destruct (dict_get d c) as [inner|] eqn:G; [apply I|].
    rewrite dict_get_set. destruct (String.eqb_spec c' c); [contradiction|].
    apply I.
Qed.

Lemma populated_fold (pl : string) (L : list (string * (string * list string))) :
  forall d, populated d -> populated (fold_left (visit pl) L d).
Proof.
  induction L as [|t L IH]; intros d I; [exact I|].
  cbn [fold_left]. apply IH. now apply populated_visit.
Qed.

Lemma get2_fold (pl : string) (L : list (string * (string * list string)))
    (c a : string) :
  forall d,
    get2 (fold_left (visit pl) L d) c a =
    match last_hit pl L c a with
    | Some ms => Some ms
    | None => get2 d c a
    end.
Proof.
  induction L as [|[c0 [a0 kws]] L IH]; intros d; [reflexivity|].
  cbn [fold_left last_hit]. rewrite IH.
  destruct (last_hit pl L c a); [reflexivity|].
  rewrite get2_visit.
  now destruct (truthy (matches_of pl kws) && String.eqb c c0 && String.eqb a a0).
Qed.

(** Whatever is listed after the loop was matched against the prompt. *)
Lemma last_hit_sound (pl : string) (L : list (string * (string * list string)))
    (c a : string) (ms : list string) :
  last_hit pl L c a = Some ms ->
  exists kws, In (c, (a, kws)) L /\ ms = matches_of pl kws /\ ms <> [].
Proof.
  induction L as [|[c0 [a0 kws]] L IH]; [discriminate|].
  cbn [last_hit]. destruct (last_hit pl L c a) as [ms'|].
  - intros H. destruct (IH H) as [k [I R]]. exists k. split; [now right|exact R].
  - destruct (truthy (matches_of pl kws)) eqn:Tm; [|discriminate].
    destruct (String.eqb_spec c c0) as [->|]; [|discriminate].
    destruct (String.eqb_spec a a0) as [->|]; [|discriminate].
    cbn [andb]. intros [= <-]. exists kws. split; [now left|].
    split; [reflexivity|]. now apply truthy_true_list.
Qed.

Lemma last_hit_absent (pl : string)
    (L : list (string * (string * list string))) (c a : string) :
  ~ In (c, a) (map key_of L) -> last_hit pl L c a = None.
Proof.
  induction L as [|[c0 [a0 kws]] L IH]; [reflexivity|].
  cbn [last_hit map key_of fst snd]. intros N.
  rewrite IH by (intros I; apply N; now right).
  destruct (String.eqb_spec c c0) as [->|]; [|now rewrite andb_false_r].
  destruct (String.eqb_spec a a0) as [->|]; [|now rewrite andb_false_r].
  elim N. now left.
Qed.

(** With unique key paths, the loop leaves under a key path exactly the
    matches of its one entry. *)
Lemma last_hit_unique (pl : string)
    (L : list (string * (string * list string))) (c a : string)
    (kws : list string) :
  NoDup (map key_of L) -> In (c, (a, kws)) L ->
  last_hit pl L c a =
  if truthy (matches_of pl kws) then Some (matches_of pl kws) else None.
Proof.
  induction L as [|[c0 [a0 kws0]] L IH]; [contradiction|].
  cbn [map key_of fst snd last_hit]. intros D [H|H].
  - injection H as -> -> ->. inversion D as [|? ? N D']; subst.
    rewrite (last_hit_absent pl L c a N), !String.eqb_refl.
    now rewrite !andb_true_r.
  - inversion D as [|? ? N D']; subst. rewrite (IH D' H).
    destruct (truthy (matches_of pl kws)); [reflexivity|].
    destruct (String.eqb_spec c c0) as [->|]; [|now rewrite andb_false_r].
    destruct (String.eqb_spec a a0) as [->|]; [|now rewrite andb_false_r].
    elim N. apply in_map_iff. exists (c0, (a0, kws)). now split.
Qed.

Lemma in_triples (T : taxonomy) (c a : string) (kws : list string) :
  In (c, (a, kws)) (triples T) <->
  exists agents, In (c, agents) T /\ In (a, kws) agents.
Proof.
  unfold triples. rewrite in_flat_map. split.
  - intros [[c0 agents] [I M]]. cbn [fst snd] in M.
    apply in_map_iff in M. destruct M as [item [E M]].
    injection E as -> <-. now exists agents.
  - intros [agents [I M]]. exists (c, agents). split; [exact I|].
    cbn [fst snd]. apply in_map_iff. now exists (a, kws).
Qed.

Lemma triples_keys_NoDup (T : taxonomy) :
  taxonomy_wf T = true -> NoDup (map key_of (triples T)).
Proof.
  unfold taxonomy_wf, dict_wf. intros W. apply andb_true_iff in W.
  destruct W as [Wc Wa]. revert Wc Wa.
  induction T as [|[c agents] T IH]; [constructor|].
  cbn [dict_keys map fst distinct forallb snd]. intros Wc Wa.
  apply andb_true_iff in Wc. destruct Wc as [Nc Wc].
  apply andb_true_iff in Wa. destruct Wa as [Wag Wa].
  unfold triples. cbn [flat_map fst snd]. rewrite map_app.
  apply NoDup_app.
  - rewrite map_map.
    replace (map (fun x : string * list string => key_of (c, x)) agents)
      with (map (fun a : string => (c, a)) (dict_keys agents))
      by (unfold dict_keys; now rewrite map_map).
    apply Finite.Injective_map_NoDup; [|now apply distinct_NoDup].
    intros x y E. now injection E.
  - now apply IH.
  - intros [c' a'] I1 I2.
    apply in_map_iff in I1. destruct I1 as [t1 [E1 I1]].
    apply in_map_iff in I1. destruct I1 as [item [<- _]].
    cbn [key_of fst snd] in E1. injection E1 as <- _.
    apply in_map_iff in I2. destruct I2 as [[c2 [a2 k2]] [E2 I2]].
    cbn [key_of fst snd] in E2. injection E2 as -> ->.
    apply in_triples in I2. destruct I2 as [ags [I2 _]].
    apply negb_true_iff in Nc.
    assert (in_strings c (dict_keys T) = true) as C.
    { apply in_strings_iff. unfold dict_keys.
      change c with (fst (c, ags)). now apply in_map. }
    unfold dict_keys in C. congruence.
Qed.

(** [sum(len(agents) ...)] counts at least one agent per category that
    is listed. *)
Lemma fold_add_from (l : list nat) (n : nat) :
  fold_left Nat.add l n = n + fold_left Nat.add l 0.
Proof.
  revert n. induction l as [|x l IH]; intros n; simpl; [lia|].
  rewrite (IH (n + x)), (IH x). lia.
Qed.

Lemma agent_count_cons (c : string) (inner : dict (list string))
    (d : detection) :
  agent_count ((c, inner) :: d) = List.length inner + agent_count d.
Proof.
  unfold agent_count, dict_values. cbn [map snd fold_left].
  now rewrite fold_add_from.
Qed.

Lemma populated_count (d : detection) :
  populated d -> truthy d = Nat.ltb 0 (agent_count d).
Proof.
  destruct d as [|[c inner] d]; intros I; [reflexivity|].
  rewrite agent_count_cons. cbn [truthy].
  destruct (I c inner) as [N _]; [simpl; now rewrite String.eqb_refl|].
  destruct inner; [congruence|]. reflexivity.
Qed.

Lemma agent_count_sum (d : detection) :
  agent_count d = list_sum (map (fun entry => List.length (snd entry)) d).
Proof.
  induction d as [|[c inner] d IH]; [reflexivity|].
  rewrite agent_count_cons, IH. reflexivity.
Qed.

(** The lines of the annotation, one per signal that holds. *)
Lemma enhancements_shape (d : detection) (ctx : project_context) :
  populated d ->
  enhancements_of d ctx =
    (if has_claude_md ctx
     then ["📋 Local CLAUDE.md context available"] else []) ++
    (if git_repository ctx
     then ["🔄 Git repository detected"] else []) ++
    (if Nat.ltb 0 (agent_count d)
     then [("🤖 " ++ str_of_nat (agent_count d)
            ++ " specialized agents detected and available")%string]
     else []).
Proof.
  intros I. unfold enhancements_of. rewrite (populated_count d I).
  destruct (has_claude_md ctx), (git_repository ctx),
    (Nat.ltb 0 (agent_count d)); reflexivity.
Qed.

Lemma enhancements_truthy (d : detection) (ctx : project_context) :
  populated d ->
  truthy (enhancements_of d ctx) =
  has_claude_md ctx || git_repository ctx || Nat.ltb 0 (agent_count d).
Proof.
  intros I. rewrite (enhancements_shape d ctx I).
  destruct (has_claude_md ctx), (git_repository ctx),
    (Nat.ltb 0 (agent_count d)); reflexivity.
Qed.

Lemma populated_nil : populated [].
Proof. intros c inner H. discriminate. Qed.

Lemma detect_agents_populated (T : taxonomy) (P : string) :
  populated (detect_agents_in T P).
Proof.
  rewrite detect_agents_as_visits. apply populated_fold, populated_nil.
Qed.

Lemma get2_nil (c a : string) : get2 [] c a = None.
Proof. reflexivity. Qed.

(** With a well-formed taxonomy, the entry of a key path after the loop
    is the list of its keywords that are in the prompt, when there is
    one. *)
Lemma get2_detect (T : taxonomy) (P : string) (c a : string)
    (agents : dict (list string)) (kws : list string) :
  taxonomy_wf T = true -> In (c, agents) T -> In (a, kws) agents ->
  get2 (detect_agents_in T P) c a =
  if truthy (matches_of (lower P) kws)
  then Some (matches_of (lower P) kws) else None.
Proof.
  intros W Ic Ia. rewrite detect_agents_as_visits, get2_fold.
  rewrite (last_hit_unique (lower P) (triples T) c a kws).
  - now destruct (truthy (matches_of (lower P) kws)).
  - now apply triples_keys_NoDup.
  - apply in_triples. now exists agents.
Qed.

Lemma agent_detected_get2 (d : detection) (c a : string) :
  agent_detected d c a <-> exists ms, get2 d c a = Some ms.
Proof.
  unfold agent_detected, get2. split.
  - intros [inner [ms [G1 G2]]]. exists ms. now rewrite G1.
  - intros [ms G]. destruct (dict_get d c) as [inner|]; [|discriminate].
    now exists inner, ms.
Qed.

Lemma keyword_detected_get2 (d : detection) (c a k : string) :
  keyword_detected d c a k <-> exists ms, get2 d c a = Some ms /\ In k ms.
Proof.
  unfold keyword_detected, get2. split.
  - intros [inner [ms [G1 [G2 I]]]]. exists ms. now rewrite G1.
  - intros [ms [G I]]. destruct (dict_get d c) as [inner|]; [|discriminate].
    now exists inner, ms.
Qed.

Lemma in_matches_of (pl k : string) (kws : list string) :
  In k (matches_of pl kws) <-> In k kws /\ occurs_in (lower k) pl.
Proof.
  unfold matches_of. rewrite filter_In. now rewrite contains_iff.
Qed.

Lemma matches_of_none (pl : string) (kws : list string) :
  (forall k, In k kws -> ~ occurs_in (lower k) pl) -> matches_of pl kws = [].
Proof.
  intros H. destruct (matches_of pl kws) as [|k ms] eqn:M; [reflexivity|].
  assert (I : In k (matches_of pl kws)) by (rewrite M; now left).
  apply in_matches_of in I. destruct I as [I O]. now elim (H k I).
Qed.

(** A category none of whose visits matched stays out. *)
Lemma dict_get_fold_none (pl : string)
    (L : list (string * (string * list string))) (c : string) :
  (forall a kws, In (c, (a, kws)) L -> matches_of pl kws = []) ->
  forall d, dict_get d c = None -> dict_get (fold_left (visit pl) L d) c = None.
Proof.
  induction L as [|[c0 [a0 kws0]] L IH]; intros Q d G; [exact G|].
  cbn [fold_left]. apply IH.
  - intros a kws I. apply (Q a kws). now right.
  - apply dict_get_visit_none. split; [exact G|].
    destruct (String.eqb_spec c c0) as [->|]; [|apply andb_false_r].
    rewrite (Q a0 kws0) by now left. reflexivity.
Qed.

Lemma fold_visit_no_match (pl : string)
    (L : list (string * (string * list string))) :
  (forall c a kws, In (c, (a, kws)) L -> matches_of pl kws = []) ->
  forall d, fold_left (visit pl) L d = d.
Proof.
  induction L as [|[c0 [a0 kws0]] L IH]; intros Q d; [reflexivity|].
  cbn [fold_left]. rewrite visit_no_match.
  - apply IH. intros c a kws I. apply (Q c a kws). now right.
  - cbn [snd]. apply (Q c0 a0). now left.
Qed.

Lemma taxonomy_category_unique (T : taxonomy) (c : string)
    (agents agents' : dict (list string)) :
  taxonomy_wf T = true -> In (c, agents) T -> In (c, agents') T ->
  agents = agents'.
Proof.
  unfold taxonomy_wf. intros W I I'. apply andb_true_iff in W.
  destruct W as [W _].
  pose proof (dict_get_unique T c agents W I) as G.
  pose proof (dict_get_unique T c agents' W I') as G'.
  congruence.
Qed.

End DetectFacts.

(* ===================================================================== *)
(** * The pipeline and the process *)
(* ===================================================================== *)

Module MainFacts.
Import Text Re Py Hook TextFacts DictFacts HookFacts.
Local Open Scope py_scope.

(** The short circuit of [process_prompt]. *)
Lemma process_prompt_blocks (E : env) (h : hook) (P : string) (w : world) :
  detect_security_issues h P <> [] ->
  process_prompt E h P w =
    (Ok (Block "Security violation detected" (detect_security_issues h P)
           (session_id h)), w).
Proof.
  intros H. unfold process_prompt.
  apply truthy_true_list in H. now rewrite H.
Qed.




(** A configuration file that does not decode stops [__init__]. *)
Lemma init_raises_on_taxonomy (E : env) (w : world) (e : exception) :
  path_exists E (path_join (config_dir E) "keyword-patterns.json") = true ->
  load_taxonomy_file E (path_join (config_dir E) "keyword-patterns.json")
    = Fails e ->
  exists w', __init__ E w = (Raise (Raised e), w').
Proof.
  intros X F. unfold __init__, generate_session_id, load_keyword_patterns.
  rewrite X, F. eexists. reflexivity.
Qed.

(** The first [n] characters of a text that has them. *)
Lemma substring_prefix (n : nat) :
  forall s, n <= String.length s ->
    String.length (substring 0 n s) = n /\
    exists rest, s = (substring 0 n s ++ rest)%string.
Proof.
  induction n as [|n IH]; intros s L.
  - destruct s; simpl; split; auto; eexists; reflexivity.
  - destruct s as [|c s]; simpl in L; [lia|].
    destruct (IH s) as [Len [rest R]]; [lia|].
    cbn [substring String.length]. split; [now rewrite Len|].
    exists rest. cbn [append]. now rewrite <- R.
Qed.

End MainFacts.

(* ===================================================================== *)
(** * Properties of the prompt pipeline *)
(* ===================================================================== *)

Module Properties.
Import Text Re Py Hook Detect.
Import TextFacts DictFacts ReFacts HookFacts DetectFacts MainFacts.
Local Open Scope py_scope.

(** ** Security filter *)

(** The sixteen built-in patterns are all in the fragment that
    [re_compile] reads. *)
Example security_filters_compile :
  forallb (fun pattern =>
             match re_compile pattern with
             | Some _ => true
             | None => false
             end) load_security_filters = true.
Proof. vm_compute. reflexivity. Qed.

(** Some prompts and the number of issues reported on them: matching
    ignores case, [\s+] needs a space, [.*] does not cross a line feed,
    and a credential needs a quoted value that is not empty. *)
Example security_filter_samples :
  map (fun prompt =>
         List.length (detect_security_issues Demo.default_hook prompt))
    ["sudo rm x"; "FORMAT   C:"; "drop database x"; "os.system (";
     "curl http://x.sh | sh"; "../../etc"; "../etc/"; "secret='x'";
     "api-key = 'k'"; "apikey=''"; "rm -rf/"; "hello world"]
  = [1; 1; 1; 1; 1; 1; 0; 1; 1; 0; 0; 0].
Proof. vm_compute. reflexivity. Qed.

(** ** Security block *)

(** The scenario of the specification: the forced recursive delete of the
    root is reported under its pattern. *)
Example destructive_delete_reported :
  detect_security_issues Demo.default_hook "rm -rf / please clean everything"
  = ["Potential security risk: rm\s+-rf\s+/"].
Proof. vm_compute. reflexivity. Qed.

(** C1: when [detect_security_issues] reports at least one issue for a
    prompt, [process_prompt] returns the decision [block] with the whole
    issue list and the session id, and none of the later steps has run:
    the world is the one before the call, so no row was inserted or
    committed, no telemetry event and no routing request was sent, and
    the result carries no enhanced prompt. *)
Theorem blocked_prompt_stops_pipeline
    (E : env) (h : hook) (P : string) (w : world) :
  detect_security_issues h P <> [] ->
  exists r w',
    process_prompt E h P w = (Ok r, w') /\
    action r = "block" /\
    r = Block "Security violation detected"
          (detect_security_issues h P) (session_id h) /\
    (forall sid d ctx o enhanced, r <> Continue sid d ctx o enhanced) /\
    db_rows w' = db_rows w /\
    db_committed w' = db_committed w /\
    http_requests w' = http_requests w /\
    w' = w.
Proof.
  intros H. eexists. exists w. rewrite (process_prompt_blocks E h P w H).
  repeat split; try reflexivity. intros; discriminate.
Qed.

Lemma blocked_prompt_stops_pipeline_witness :
  detect_security_issues Demo.default_hook "rm -rf / please clean everything"
    <> [] /\
  process_prompt (Demo.served_env [Demo.script; "rm -rf / please clean everything"])
    Demo.default_hook "rm -rf / please clean everything" Demo.fresh_world
  = (Ok (Block "Security violation detected"
           ["Potential security risk: rm\s+-rf\s+/"] "01234567"),
     Demo.fresh_world).
Proof.
  assert (H : detect_security_issues Demo.default_hook
                "rm -rf / please clean everything" <> [])
    by (vm_compute; discriminate).
  split; [exact H|].
  destruct (blocked_prompt_stops_pipeline
              (Demo.served_env [Demo.script; "rm -rf / please clean everything"])
              Demo.default_hook "rm -rf / please clean everything"
              Demo.fresh_world H)
    as [r [w' [R [_ [B [_ [_ [_ [_ W]]]]]]]]].
  rewrite R, B, W. reflexivity.
Defined.

(** ** Exit status *)


(** A keyword file that does not decode ends the process with status 1
    as well, on a prompt the filter would pass. *)
Example undecodable_config_exit :
  exit_status (Demo.broken_config_env [Demo.script; "hello"]) Demo.fresh_world
    = 1%Z /\
  detect_security_issues Demo.default_hook "hello" = [].
Proof. vm_compute. split; reflexivity. Qed.



(** ** Configuration loading *)

(** A keyword file, or a registry file, that is there and does not
    decode: the decoding error comes out of the loader, and the built-in
    default is not used. *)
Lemma undecodable_config_raises :
  let E := Demo.broken_config_env [Demo.script; "hello"] in
  path_exists E (path_join (config_dir E) "keyword-patterns.json") = true /\
  load_keyword_patterns E Demo.fresh_world
    = (Raise (Raised Demo.bad_json), Demo.fresh_world) /\
  load_keyword_patterns E Demo.fresh_world
    <> (Ok default_keyword_patterns, Demo.fresh_world) /\
  path_exists E (path_join (config_dir E) "agent-registry.json") = true /\
  load_agent_registry E Demo.fresh_world
    = (Raise (Raised Demo.bad_json), Demo.fresh_world) /\
  load_agent_registry E Demo.fresh_world <> (Ok (JObj []), Demo.fresh_world).
Proof. vm_compute. repeat split; try reflexivity; discriminate. Qed.

(** C4, as the code has it: a loader falls back to the built-in default
    (the default taxonomy, the empty registry) when its file is absent;
    when the file is there, the loader returns what decoding gives, and
    an error of the decoding propagates out of the loader. *)
Theorem config_loading (E : env) (w : world) :
  let patterns_file := path_join (config_dir E) "keyword-patterns.json" in
  let registry_file := path_join (config_dir E) "agent-registry.json" in
  (path_exists E patterns_file = false ->
   load_keyword_patterns E w = (Ok default_keyword_patterns, w)) /\
  (forall T, path_exists E patterns_file = true ->
     load_taxonomy_file E patterns_file = Returns T ->
     load_keyword_patterns E w = (Ok T, w)) /\
  (forall e, path_exists E patterns_file = true ->
     load_taxonomy_file E patterns_file = Fails e ->
     load_keyword_patterns E w = (Raise (Raised e), w)) /\
  (path_exists E registry_file = false ->
   load_agent_registry E w = (Ok (JObj []), w)) /\
  (forall j, path_exists E registry_file = true ->
     load_json_file E registry_file = Returns j ->
     load_agent_registry E w = (Ok j, w)) /\
  (forall e, path_exists E registry_file = true ->
     load_json_file E registry_file = Fails e ->
     load_agent_registry E w = (Raise (Raised e), w)).
Proof.
  unfold load_keyword_patterns, load_agent_registry, lift, ret.
  repeat split; intros.
  - now rewrite H.
  - now rewrite H, H0.
  - now rewrite H, H0.
  - now rewrite H.
  - now rewrite H, H0.
  - now rewrite H, H0.
Qed.

Lemma config_loading_witness :
  (path_exists (Demo.plain_env [])
     (path_join (config_dir (Demo.plain_env [])) "keyword-patterns.json") = false /\
   load_keyword_patterns (Demo.plain_env []) Demo.fresh_world
     = (Ok default_keyword_patterns, Demo.fresh_world)) /\
  (path_exists (Demo.broken_config_env [])
     (path_join (config_dir (Demo.broken_config_env [])) "keyword-patterns.json") = true /\
   load_taxonomy_file (Demo.broken_config_env [])
     (path_join (config_dir (Demo.broken_config_env [])) "keyword-patterns.json")
     = Fails Demo.bad_json /\
   load_keyword_patterns (Demo.broken_config_env []) Demo.fresh_world
     = (Raise (Raised Demo.bad_json), Demo.fresh_world)).
Proof.
  split.
  - assert (X : path_exists (Demo.plain_env [])
      (path_join (config_dir (Demo.plain_env [])) "keyword-patterns.json") = false)
      by (vm_compute; reflexivity).
    split; [exact X|].
    exact (proj1 (config_loading (Demo.plain_env []) Demo.fresh_world) X).
  - assert (X : path_exists (Demo.broken_config_env [])
      (path_join (config_dir (Demo.broken_config_env [])) "keyword-patterns.json") = true)
      by (vm_compute; reflexivity).
    assert (F : load_taxonomy_file (Demo.broken_config_env [])
      (path_join (config_dir (Demo.broken_config_env [])) "keyword-patterns.json")
      = Fails Demo.bad_json) by reflexivity.
    split; [exact X|]. split; [exact F|].
    exact (proj1 (proj2 (proj2
      (config_loading (Demo.broken_config_env []) Demo.fresh_world)))
      Demo.bad_json X F).
Defined.

(** ** Telemetry *)

(** The telemetry endpoint answers 200, and [log_event] hands back
    [None], not [True]. *)
Lemma log_event_returns_no_flag :
  posted_200 (requests_post (Demo.served_env []) observability_endpoint
                (EventBody Demo.sample_event)) /\
  fst (log_event (Demo.served_env []) Demo.sample_event Demo.fresh_world)
    = Ok PyNone /\
  fst (log_event (Demo.served_env []) Demo.sample_event Demo.fresh_world)
    <> Ok (PyBool true).
Proof.
  split; [|split].
  - eexists. split; reflexivity.
  - reflexivity.
  - discriminate.
Qed.

(** C5, as the code has it: [log_event] sends the event, never raises and
    returns [None] whatever happened; whether the POST went through with
    status 200 shows on the diagnostic channel only: nothing is printed
    when it did, and one warning is printed when the status is another
    one or the call raised. *)
Theorem log_event_reports_on_stderr (E : env) (ev : event_data) (w : world) :
  exists w',
    log_event E ev w = (Ok PyNone, w') /\
    http_requests w' =
      http_requests w ++ [(observability_endpoint, EventBody ev)] /\
    (stderr w' = stderr w <->
     posted_200 (requests_post E observability_endpoint (EventBody ev))) /\
    (~ posted_200 (requests_post E observability_endpoint (EventBody ev)) ->
     exists warning, stderr w' = stderr w ++ [warning]).
Proof.
  destruct (log_event_returns E ev w) as [w' [L [R [_ [_ [S N]]]]]].
  exists w'. auto.
Qed.

(** ** Routing *)

(** C6: [route_to_orchestrator] never raises; it returns the decoded body
    of the response when the POST returns status 200, and [None] when the
    status is another one, when the call raises, or when the body does
    not decode.  When routing fails, the pipeline still returns
    [continue], with [None] as orchestration result. *)
Theorem routing_degrades_to_none (E : env) (h : hook) (P : string) (w : world) :
  (forall d ctx,
     let request := routing_request h P d ctx (clock E (clock_reads w)) in
     exists r w',
       route_to_orchestrator E h P d ctx w = (Ok r, w') /\
       (forall resp body,
          requests_post E orchestrator_endpoint request = Returns resp ->
          status_code resp = 200%Z ->
          response_json resp = Returns body ->
          r = Some body) /\
       (routing_failed (requests_post E orchestrator_endpoint request) ->
        r = None)) /\
  (detect_security_issues h P = [] ->
   (forall request,
      routing_failed (requests_post E orchestrator_endpoint request)) ->
   exists r sid d ctx enhanced w',
     process_prompt E h P w = (Ok r, w') /\
     r = Continue sid d ctx None enhanced /\
     action r = "continue").
Proof.
  split.
  - intros d ctx request.
    destruct (route_returns E h P d ctx w) as [w' [R _]].
    eexists. exists w'. split; [exact R|]. fold request. split.
    + intros resp body A S J. rewrite A, S, J. reflexivity.
    + apply route_failed_none.
  - intros Clean Down.
    destruct (process_prompt_continues E h P w Clean)
      as [ctx [request [w' [_ R]]]].
    rewrite (route_failed_none _ (Down request)) in R.
    eexists. eexists. eexists. eexists. eexists. exists w'.
    split; [exact R|]. split; reflexivity.
Qed.

Lemma routing_degrades_to_none_witness :
  detect_security_issues Demo.default_hook "hello" = [] /\
  (forall request,
     routing_failed (requests_post (Demo.plain_env [Demo.script; "hello"])
                       orchestrator_endpoint request)) /\
  exists r sid d ctx enhanced w',
    process_prompt (Demo.plain_env [Demo.script; "hello"]) Demo.default_hook
      "hello" Demo.fresh_world = (Ok r, w') /\
    r = Continue sid d ctx None enhanced /\
    action r = "continue".
Proof.
  assert (C : detect_security_issues Demo.default_hook "hello" = [])
    by (vm_compute; reflexivity).
  assert (D : forall request,
     routing_failed (requests_post (Demo.plain_env [Demo.script; "hello"])
                       orchestrator_endpoint request))
    by (intros request; simpl; exact I).
  split; [exact C|]. split; [exact D|].
  exact (proj2 (routing_degrades_to_none (Demo.plain_env [Demo.script; "hello"])
                  Demo.default_hook "hello" Demo.fresh_world) C D).
Defined.

(** ** Project context *)

(** C7: with an instructions file of 2000 characters in the working
    directory, [get_project_context] returns an excerpt of exactly 1000
    characters, the first 1000 of the file; when the file is absent or
    reading it raises (a decoding or an I/O error), the context has no
    excerpt; in every case the probe returns and raises nothing. *)
Theorem instructions_excerpt (E : env) (w : world) :
  let path := path_join (cwd E) "CLAUDE.md" in
  exists ctx,
    get_project_context E w = (Ok ctx, w) /\
    (forall text,
       path_exists E path = true ->
       read_text E path = Returns text ->
       String.length text = 2000 ->
       exists excerpt rest,
         claude_md_content ctx = Some excerpt /\
         String.length excerpt = 1000 /\
         text = (excerpt ++ rest)%string /\
         excerpt = substring 0 1000 text) /\
    (path_exists E path = false -> claude_md_content ctx = None) /\
    (forall e, read_text E path = Fails e -> claude_md_content ctx = None).
Proof.
  intros path.
  destruct (get_project_context_returns E w) as [ctx [G [_ [_ C]]]].
  exists ctx. split; [exact G|]. fold path in C. repeat split.
  - intros text X R L. rewrite X, R in C.
    destruct (substring_prefix 1000 text) as [Len [rest Pre]]; [lia|].
    exists (substring 0 1000 text), rest. auto.
  - intros X. now rewrite X in C.
  - intros e R. rewrite R in C. now destruct (path_exists E path).
Qed.

Lemma instructions_excerpt_witness :
  let E := Demo.instructed_env [] in
  (path_exists E (path_join (cwd E) "CLAUDE.md") = true /\
   read_text E (path_join (cwd E) "CLAUDE.md") = Returns Demo.long_instructions /\
   String.length Demo.long_instructions = 2000) /\
  exists ctx,
    get_project_context E Demo.fresh_world = (Ok ctx, Demo.fresh_world) /\
    claude_md_content ctx = Some (Demo.repeat_string "a" 1000).
Proof.
  intros E.
  assert (X : path_exists E (path_join (cwd E) "CLAUDE.md") = true)
    by (vm_compute; reflexivity).
  assert (R : read_text E (path_join (cwd E) "CLAUDE.md")
              = Returns Demo.long_instructions) by reflexivity.
  assert (L : String.length Demo.long_instructions = 2000)
    by (vm_compute; reflexivity).
  split; [auto|].
  destruct (instructions_excerpt E Demo.fresh_world) as [ctx [G [Ex _]]].
  exists ctx. split; [exact G|].
  destruct (Ex _ X R L) as [excerpt [rest [C [_ [_ S]]]]].
  rewrite C, S. vm_compute. reflexivity.
Defined.

(** ** Prompt annotation *)

(** C8: for a prompt that is not blocked, the enhanced prompt of the
    result is the prompt followed by one annotation when the instructions
    file is there, or the directory is under version control, or the
    count of detected agents (the sum, over the categories, of the number
    of their detected agents) is positive; the annotation lists, in this
    order, the signals that hold.  When none holds the enhanced prompt is
    the prompt. *)
Theorem annotation_iff_signal (E : env) (h : hook) (P : string) (w : world) :
  detect_security_issues h P = [] ->
  exists ctx orch w',
    let d := detect_agents h P in
    let count := agent_count d in
    let signal := has_claude_md ctx || git_repository ctx || Nat.ltb 0 count in
    process_prompt E h P w =
      (Ok (Continue (session_id h) d ctx orch (enhance_prompt P d ctx)), w') /\
    count = list_sum (map (fun entry => List.length (snd entry)) d) /\
    enhancements_of d ctx =
      (if has_claude_md ctx
       then ["📋 Local CLAUDE.md context available"] else []) ++
      (if git_repository ctx
       then ["🔄 Git repository detected"] else []) ++
      (if Nat.ltb 0 count
       then [("🤖 " ++ str_of_nat count
              ++ " specialized agents detected and available")%string]
       else []) /\
    (signal = true ->
     enhance_prompt P d ctx =
       (P ++ newline ++ newline ++ "<!-- System Context: "
          ++ join " | " (enhancements_of d ctx) ++ " -->")%string) /\
    (signal = false -> enhance_prompt P d ctx = P).
Proof.
  intros Clean.
  destruct (process_prompt_continues E h P w Clean)
    as [ctx [request [w' [_ R]]]].
  exists ctx. eexists. exists w'. cbv zeta.
  pose proof (detect_agents_populated (keyword_patterns h) P) as I.
  fold (detect_agents h P) in I.
  split; [exact R|]. split; [apply agent_count_sum|].
  split; [now apply enhancements_shape|].
  unfold enhance_prompt. rewrite (enhancements_truthy _ ctx I).
  split; intros S; now rewrite S.
Qed.

Lemma annotation_iff_signal_witness :
  detect_security_issues Demo.default_hook
    "please optimize the slow API performance" = [] /\
  exists ctx orch w',
    process_prompt
      (Demo.plain_env [Demo.script; "please optimize the slow API performance"])
      Demo.default_hook "please optimize the slow API performance"
      Demo.fresh_world =
      (Ok (Continue "01234567"
             (detect_agents Demo.default_hook
                "please optimize the slow API performance")
             ctx orch
             (enhance_prompt "please optimize the slow API performance"
                (detect_agents Demo.default_hook
                   "please optimize the slow API performance") ctx)), w').
Proof.
  assert (C : detect_security_issues Demo.default_hook
                "please optimize the slow API performance" = [])
    by (vm_compute; reflexivity).
  split; [exact C|].
  destruct (annotation_iff_signal
              (Demo.plain_env
                 [Demo.script; "please optimize the slow API performance"])
              Demo.default_hook "please optimize the slow API performance"
              Demo.fresh_world C) as [ctx [orch [w' [R _]]]].
  exists ctx, orch, w'. exact R.
Defined.

(** The scenario of the specification: the annotation names the count of
    detected agents. *)
Example optimize_prompt_annotated :
  enhance_prompt "please optimize the slow API performance"
    (detect_agents Demo.default_hook "please optimize the slow API performance")
    {| working_directory := "/work/project"; project_name := "project";
       has_package_json := false; has_claude_md := false;
       has_local_claude := false; git_repository := false;
       claude_md_content := None |}
  = ("please optimize the slow API performance" ++ newline ++ newline
     ++ "<!-- System Context: 🤖 3 specialized agents detected and available -->")%string.
Proof. vm_compute. reflexivity. Qed.

(** C10: for a prompt that is not blocked, the enhanced prompt of the
    result begins with the prompt, character for character: it is the
    prompt, or the prompt followed by the annotation. *)
Theorem enhanced_prompt_extends_prompt
    (E : env) (h : hook) (P : string) (w : world) :
  detect_security_issues h P = [] ->
  exists sid d ctx orch enhanced w',
    process_prompt E h P w = (Ok (Continue sid d ctx orch enhanced), w') /\
    (enhanced = P \/ enhanced = (P ++ annotation d ctx)%string) /\
    (exists suffix, enhanced = (P ++ suffix)%string) /\
    prefix P enhanced = true.
Proof.
  intros Clean.
  destruct (process_prompt_continues E h P w Clean)
    as [ctx [request [w' [_ R]]]].
  eexists. eexists. exists ctx. eexists. eexists. exists w'.
  split; [exact R|].
  assert (A : enhance_prompt P (detect_agents h P) ctx = P \/
              enhance_prompt P (detect_agents h P) ctx
                = (P ++ annotation (detect_agents h P) ctx)%string).
  { unfold enhance_prompt, annotation.
    destruct (truthy (enhancements_of (detect_agents h P) ctx)); auto. }
  split; [exact A|].
  assert (S : exists suffix,
            enhance_prompt P (detect_agents h P) ctx = (P ++ suffix)%string).
  { destruct A as [A|A]; rewrite A.
    - exists EmptyString. now rewrite sapp_nil_r.
    - eexists. reflexivity. }
  split; [exact S|]. now apply prefix_iff.
Qed.

Lemma enhanced_prompt_extends_prompt_witness :
  detect_security_issues Demo.default_hook "review the docs" = [] /\
  exists sid d ctx orch enhanced w',
    process_prompt (Demo.served_env [Demo.script; "review the docs"])
      Demo.default_hook "review the docs" Demo.fresh_world
      = (Ok (Continue sid d ctx orch enhanced), w') /\
    prefix "review the docs" enhanced = true.
Proof.
  assert (C : detect_security_issues Demo.default_hook "review the docs" = [])
    by (vm_compute; reflexivity).
  split; [exact C|].
  destruct (enhanced_prompt_extends_prompt
              (Demo.served_env [Demo.script; "review the docs"])
              Demo.default_hook "review the docs" Demo.fresh_world C)
    as [sid [d [ctx [orch [enhanced [w' [R [_ [_ Pre]]]]]]]]].
  exists sid, d, ctx, orch, enhanced, w'. split; [exact R | exact Pre].
Defined.

(** ** Agent detection *)

(** The scenario of the specification, on the built-in taxonomy. *)
Example optimize_prompt_detected :
  detect_agents Demo.default_hook "please optimize the slow API performance"
  = [("engineering",
      [("performance-optimizer", ["performance"; "optimize"; "slow"])]);
     ("product", [("metrics-analyzer", ["performance"])]);
     ("testing", [("load-tester", ["performance"])])].
Proof. vm_compute. reflexivity. Qed.

(** C3: for a taxonomy whose dictionaries have unique keys, a keyword of
    an agent of a category is listed in [detected[category][agent]] if
    and only if the lowercased keyword occurs in the lowercased prompt;
    an agent none of whose keywords occurs is no key of its category, a
    category none of whose agents has a keyword that occurs is no key of
    the result, nothing stored is empty, and when no keyword of the
    taxonomy occurs the result is the empty dictionary. *)
Theorem detect_agents_by_keywords (h : hook) (P : string) :
  taxonomy_wf (keyword_patterns h) = true ->
  let T := keyword_patterns h in
  let detected := detect_agents h P in
  (forall category agents agent keywords keyword,
     In (category, agents) T ->
     In (agent, keywords) agents ->
     In keyword keywords ->
     (keyword_detected detected category agent keyword <->
      occurs_in (lower keyword) (lower P))) /\
  (forall category agents agent keywords,
     In (category, agents) T ->
     In (agent, keywords) agents ->
     (forall keyword, In keyword keywords ->
        ~ occurs_in (lower keyword) (lower P)) ->
     ~ agent_detected detected category agent) /\
  (forall category agents,
     In (category, agents) T ->
     (forall agent keywords keyword,
        In (agent, keywords) agents -> In keyword keywords ->
        ~ occurs_in (lower keyword) (lower P)) ->
     dict_get detected category = None) /\
  (forall category agents,
     dict_get detected category = Some agents ->
     agents <> [] /\
     forall agent matches, dict_get agents agent = Some matches ->
       matches <> []) /\
  ((forall category agents agent keywords keyword,
      In (category, agents) T ->
      In (agent, keywords) agents ->
      In keyword keywords ->
      ~ occurs_in (lower keyword) (lower P)) ->
   detected = []).
Proof.
  intros W T detected. unfold detected, detect_agents. fold T.
  split; [|split; [|split; [|split]]].
  - intros c agents a kws k Ic Ia Ik.
    rewrite keyword_detected_get2, (get2_detect T P c a agents kws W Ic Ia).
    destruct (truthy (matches_of (lower P) kws)) eqn:Tm.
    + split.
      * intros [ms [[= <-] I]]. now apply in_matches_of in I.
      * intros O. eexists. split; [reflexivity|]. now apply in_matches_of.
    + apply truthy_false_list in Tm. split.
      * intros [ms [D _]]. discriminate.
      * intros O.
        assert (I : In k (matches_of (lower P) kws))
          by now apply in_matches_of.
        rewrite Tm in I. contradiction.
  - intros c agents a kws Ic Ia No.
    rewrite agent_detected_get2, (get2_detect T P c a agents kws W Ic Ia).
    rewrite (matches_of_none _ _ No). intros [ms D]. discriminate.
  - intros c agents Ic No.
    rewrite detect_agents_as_visits. apply dict_get_fold_none; [|reflexivity].
    intros a kws I. apply in_triples in I. destruct I as [agents' [Ic' Ia]].
    rewrite <- (taxonomy_category_unique T c agents agents' W Ic Ic') in Ia.
    apply matches_of_none. intros k Ik. now apply (No a kws).
  - apply detect_agents_populated.
  - intros No. rewrite detect_agents_as_visits. apply fold_visit_no_match.
    intros c a kws I. apply in_triples in I. destruct I as [agents [Ic Ia]].
    apply matches_of_none. intros k Ik. now apply (No c agents a kws).
Qed.

Lemma detect_agents_by_keywords_witness :
  taxonomy_wf (keyword_patterns Demo.default_hook) = true /\
  keyword_detected
    (detect_agents Demo.default_hook "please optimize the slow API performance")
    "engineering" "performance-optimizer" "performance".
Proof.
  assert (W : taxonomy_wf (keyword_patterns Demo.default_hook) = true)
    by (vm_compute; reflexivity).
  split; [exact W|].
  pose (agents := snd (nth 0 default_keyword_patterns (EmptyString, []))).
  assert (I1 : In ("engineering", agents) (keyword_patterns Demo.default_hook))
    by (vm_compute; left; reflexivity).
  assert (I2 : In ("performance-optimizer",
                   ["performance"; "speed"; "optimize"; "slow"; "latency";
                    "bundle"]) agents)
    by (vm_compute; do 3 right; left; reflexivity).
  assert (I3 : In "performance"
                 ["performance"; "speed"; "optimize"; "slow"; "latency";
                  "bundle"]) by (left; reflexivity).
  apply (proj1 (detect_agents_by_keywords Demo.default_hook
                  "please optimize the slow API performance" W)
           _ _ _ _ _ I1 I2 I3).
  apply contains_iff. vm_compute. reflexivity.
Defined.

(** ** Keyword extraction *)

Example extract_keywords_sample :
  extract_keywords (Demo.plain_env [])
    "The quick brown fox, the LAZY dog and the quick cat_2!"
  = ["brown"; "fox"; "lazy"; "dog"; "quick"; "cat_2"].
Proof. vm_compute. reflexivity. Qed.

(** C9: [extract_keywords] lists no word twice; every word it lists is in
    lower case, is a run of at least three word characters of the
    lowercased prompt with an edge on both sides, is the lowercased form
    of a piece of the prompt, and is no stopword.  The result is a
    function of the prompt: equal prompts give equal results, and under
    another listing order of sets the result has the same words. *)
Theorem extract_keywords_spec (E : env) (P : string) :
  set_order_ok (set_order E) ->
  NoDup (extract_keywords E P) /\
  (forall word, In word (extract_keywords E P) ->
     lower word = word /\
     3 <= String.length word /\
     all_chars is_word word = true /\
     (exists pre post,
        lower P = (pre ++ word ++ post)%string /\
        word_edge (last_or None pre) = true /\
        word_edge (first_char post) = true) /\
     (exists piece, occurs_in piece P /\ lower piece = word) /\
     in_strings word stopwords = false) /\
  (forall P', P' = P -> extract_keywords E P' = extract_keywords E P) /\
  (forall E', set_order_ok (set_order E') ->
     Permutation (extract_keywords E P) (extract_keywords E' P)).
Proof.
  intros Ord.
  assert (F : exists ws, re_findall "\b\w{3,}\b" (lower P) = Some ws).
  { unfold re_findall. rewrite word_pattern_compiles. eexists. reflexivity. }
  destruct F as [ws F].
  split; [apply Ord|]. split; [|split].
  - intros word I. unfold extract_keywords in I. rewrite F in I.
    apply (proj1 (proj2 (Ord _) word)) in I.
    apply filter_In in I.
    destruct I as [I Stop]. apply negb_true_iff in Stop.
    destruct (findall_words (lower P) word ws F I)
      as [A [L [pre [post [Eq [Eb Ea]]]]]].
    assert (O : occurs_in word (lower P)) by (now exists pre, post).
    repeat split; auto.
    + now apply (lower_piece_fixed word P).
    + now exists pre, post.
    + now apply lower_occurs.
  - intros P' ->. reflexivity.
  - intros E' Ord'. unfold extract_keywords.
    apply NoDup_Permutation; [apply Ord | apply Ord' |].
    intros x. split; intros I.
    + apply (proj2 (proj2 (Ord' _) x)). now apply (proj1 (proj2 (Ord _) x)) in I.
    + apply (proj2 (proj2 (Ord _) x)). now apply (proj1 (proj2 (Ord' _) x)) in I.
Qed.

Lemma extract_keywords_spec_witness :
  set_order_ok (set_order (Demo.plain_env [])) /\
  NoDup (extract_keywords (Demo.plain_env [])
           "The quick brown fox, the LAZY dog and the quick cat_2!").
Proof.
  assert (Ord : set_order_ok (set_order (Demo.plain_env []))).
  { intros l. simpl. split; [apply NoDup_nodup | intros x; apply nodup_In]. }
  split; [exact Ord|].
  exact (proj1 (extract_keywords_spec (Demo.plain_env [])
                  "The quick brown fox, the LAZY dog and the quick cat_2!" Ord)).
Defined.

End Properties.

(* ===================================================================== *)
(** * The matcher against what a pattern accepts *)
(* ===================================================================== *)

Module AcceptFacts.
Import Text Re ReSpec TextFacts ReFacts.







Lemma occurs_in_trans (a b c : string) :
  occurs_in a b -> occurs_in b c -> occurs_in a c.
Proof.
  intros [p1 [q1 ->]] [p2 [q2 ->]].
  exists (p2 ++ p1)%string, (q1 ++ q2)%string.
  now rewrite !sapp_assoc.
Qed.


End AcceptFacts.

(* ===================================================================== *)
(** * Matching without regard to case *)
(* ===================================================================== *)

Module CaseFacts.
Import Text Re ReSpec Py Hook TextFacts ReFacts AcceptFacts.











Lemma fold_issues (P : string) (l acc : list string) :
  fold_left
    (fun issues pattern =>
       if pattern_matches pattern P
       then issues ++ [("Potential security risk: " ++ pattern)%string]
       else issues) l acc =
  acc ++ map (fun pattern => ("Potential security risk: " ++ pattern)%string)
             (filter (fun pattern => pattern_matches pattern P) l).
Proof.
  revert acc. induction l as [|pattern l IH]; intros acc.
  - cbn. now rewrite app_nil_r.
  - cbn [fold_left filter]. rewrite IH.
    destruct (pattern_matches pattern P); [|reflexivity].
    cbn [map]. now rewrite <- app_assoc.
Qed.

(** The loop of [detect_security_issues], as a filter over the
    patterns. *)
Lemma detect_security_issues_eq (h : hook) (P : string) :
  detect_security_issues h P =
  map (fun pattern => ("Potential security risk: " ++ pattern)%string)
      (filter (fun pattern => pattern_matches pattern P) (security_filters h)).
Proof. unfold detect_security_issues. now rewrite fold_issues. Qed.



End CaseFacts.

(* ===================================================================== *)
(** * The detection loop builds the pruned taxonomy *)
(* ===================================================================== *)

Module PrunedFacts.
Import Text Py Hook Detect DetectSpec TextFacts DictFacts DetectFacts.

Section DictAppend.
Context {V : Type}.
Implicit Types (d : dict V) (k : string) (v : V).

Lemma dict_get_none_keys d k :
  dict_get d k = None <-> in_strings k (dict_keys d) = false.
Proof.
  induction d as [|[k0 v0] d IH]; cbn; [tauto|].
  destruct (String.eqb_spec k k0); cbn; [split; discriminate | exact IH].
Qed.

(** Writing under a new key puts the entry at the end. *)
Lemma dict_set_fresh d k v :
  dict_get d k = None -> dict_set d k v = d ++ [(k, v)].
Proof.
  induction d as [|[k0 v0] d IH]; cbn; [reflexivity|].
  destruct (String.eqb_spec k k0); [discriminate|].
  intros G. now rewrite IH.
Qed.

(** Writing under the key of the last entry, when it is nowhere else,
    replaces that entry. *)
Lemma dict_set_last d k v v' :
  dict_get d k = None -> dict_set (d ++ [(k, v)]) k v' = d ++ [(k, v')].
Proof.
  induction d as [|[k0 v0] d IH]; cbn.
  - now rewrite String.eqb_refl.
  - destruct (String.eqb_spec k k0); [discriminate|].
    intros G. now rewrite IH.
Qed.

Lemma dict_get_last d k v :
  dict_get d k = None -> dict_get (d ++ [(k, v)]) k = Some v.
Proof.
  induction d as [|[k0 v0] d IH]; cbn.
  - now rewrite String.eqb_refl.
  - destruct (String.eqb_spec k k0); [discriminate | exact IH].
Qed.

Lemma dict_get_app_other d k v k' :
  k' <> k -> dict_get (d ++ [(k, v)]) k' = dict_get d k'.
Proof.
  intros N. induction d as [|[k0 v0] d IH]; cbn.
  - now destruct (String.eqb_spec k' k).
  - now destruct (String.eqb k' k0).
Qed.

End DictAppend.

(** The loop over the agents of one category, started with the agents
    [inner0] already found under it. *)
Lemma agents_loop (pl c : string) (d : detection) :
  dict_get d c = None ->
  forall (agents inner0 : dict (list string)),
    dict_wf agents = true ->
    (forall a, In a (dict_keys agents) -> dict_get inner0 a = None) ->
    fold_left (detect_agent pl c) agents
      (if truthy inner0 then d ++ [(c, inner0)] else d) =
    (if truthy (inner0 ++ matched_agents pl agents)
     then d ++ [(c, inner0 ++ matched_agents pl agents)] else d).
Proof.
  intros Gc. induction agents as [|[a kws] agents IH]; intros inner0 W Fresh.
  - cbn. now rewrite app_nil_r.
  - unfold dict_wf in W. cbn [dict_keys map fst distinct] in W.
    apply andb_true_iff in W. destruct W as [Na W].
    apply negb_true_iff in Na.
    cbn [fold_left matched_agents flat_map fst snd].
    fold (matched_agents pl agents).
    assert (Step : detect_agent pl c
              (if truthy inner0 then d ++ [(c, inner0)] else d) (a, kws) =
            if truthy (matches_of pl kws)
            then d ++ [(c, inner0 ++ [(a, matches_of pl kws)])]
            else if truthy inner0 then d ++ [(c, inner0)] else d).
    { unfold detect_agent. fold (matches_of pl kws).
      destruct (truthy (matches_of pl kws)); [|reflexivity].
      destruct inner0 as [|i0 inner0]; cbn [truthy].
      - rewrite Gc, (dict_set_fresh d c [] Gc), (dict_get_last d c [] Gc).
        now rewrite (dict_set_last d c _ _ Gc).
      - rewrite (dict_get_last d c _ Gc). cbv beta iota.
        rewrite (dict_get_last d c _ Gc), (dict_set_last d c _ _ Gc).
        rewrite dict_set_fresh; [reflexivity|].
        apply Fresh. now left. }
    rewrite Step. destruct (truthy (matches_of pl kws)) eqn:Tm.
    + assert (Tr : truthy (inner0 ++ [(a, matches_of pl kws)]) = true)
        by (now destruct inner0).
      pose proof (IH (inner0 ++ [(a, matches_of pl kws)]) W) as IH'.
      rewrite Tr in IH'.
      etransitivity; [apply IH' | now rewrite <- app_assoc].
      intros a' I. rewrite dict_get_app_other.
      * apply Fresh. now right.
      * intros ->. apply in_strings_iff in I. unfold dict_keys in I.
        congruence.
    + cbn [app]. apply (IH inner0 W).
      intros a' I. apply Fresh. now right.
Qed.

(** The loop over the categories. *)
Lemma categories_loop (pl : string) :
  forall (T : taxonomy) (d : detection),
    taxonomy_wf T = true ->
    (forall c, In c (dict_keys T) -> dict_get d c = None) ->
    fold_left
      (fun detected (entry : string * dict (list string)) =>
         let '(category, agents) := entry in
         fold_left (detect_agent pl category) agents detected)
      T d = d ++ pruned pl T.
Proof.
  induction T as [|[c agents] T IH]; intros d W Fresh.
  - cbn. now rewrite app_nil_r.
  - unfold taxonomy_wf, dict_wf in W.
    cbn [dict_keys map fst distinct forallb snd] in W.
    apply andb_true_iff in W. destruct W as [Wc Wa].
    apply andb_true_iff in Wc. destruct Wc as [Nc Wc].
    apply andb_true_iff in Wa. destruct Wa as [Wag Wa].
    apply negb_true_iff in Nc.
    assert (Gc : dict_get d c = None) by (apply Fresh; now left).
    cbn [fold_left pruned flat_map fst snd]. fold (pruned pl T).
    pose proof (agents_loop pl c d Gc agents [] Wag) as L.
    cbn [truthy app] in L. rewrite L by reflexivity.
    assert (WT : taxonomy_wf T = true).
    { apply andb_true_iff. split; [exact Wc | exact Wa]. }
    rewrite (IH _ WT).
    + destruct (truthy (matched_agents pl agents)); cbn [app];
        [now rewrite <- app_assoc | reflexivity].
    + intros c' I.
      assert (G' : dict_get d c' = None) by (apply Fresh; now right).
      destruct (truthy (matched_agents pl agents)); [|exact G'].
      rewrite dict_get_app_other; [exact G'|].
      intros ->. apply in_strings_iff in I. unfold dict_keys in I. congruence.
Qed.

Lemma detect_agents_pruned (T : taxonomy) (P : string) :
  taxonomy_wf T = true -> detect_agents_in T P = pruned (lower P) T.
Proof.
  intros W. unfold detect_agents_in.
  now rewrite (categories_loop (lower P) T [] W).
Qed.

Lemma matched_agents_length (pl : string) (agents : dict (list string)) :
  List.length (matched_agents pl agents) =
  List.length (filter (fun item : string * list string =>
                         truthy (matches_of pl (snd item))) agents).
Proof.
  induction agents as [|[a kws] agents IH]; [reflexivity|].
  cbn [matched_agents flat_map filter fst snd]. fold (matched_agents pl agents).
  destruct (truthy (matches_of pl kws)); cbn; now rewrite IH.
Qed.

Lemma filter_map_pair (pl c : string) (agents : dict (list string)) :
  filter (fun t : string * (string * list string) =>
            truthy (matches_of pl (snd (snd t))))
         (map (fun item => (c, item)) agents) =
  map (fun item => (c, item))
      (filter (fun item : string * list string =>
                 truthy (matches_of pl (snd item))) agents).
Proof.
  induction agents as [|[a kws] agents IH]; [reflexivity|].
  cbn [map filter snd]. rewrite IH.
  now destruct (truthy (matches_of pl kws)).
Qed.

(** The count of the annotation is the number of entries of the taxonomy
    with a keyword in the prompt. *)
Lemma agent_count_pruned (pl : string) (T : taxonomy) :
  agent_count (pruned pl T) = List.length (hits pl T).
Proof.
  unfold hits, triples.
  induction T as [|[c agents] T IH]; [reflexivity|].
  cbn [pruned flat_map fst snd]. fold (pruned pl T).
  rewrite filter_app, length_app, filter_map_pair, length_map,
    <- matched_agents_length, <- IH.
  destruct (matched_agents pl agents) as [|m ms] eqn:M; cbn [truthy app].
  - reflexivity.
  - now rewrite agent_count_cons.
Qed.

(** Whatever is listed under a key path comes from an entry of the
    taxonomy. *)
Lemma keyword_detected_origin (T : taxonomy) (P c a k : string) :
  keyword_detected (detect_agents_in T P) c a k ->
  exists agents kws,
    In (c, agents) T /\ In (a, kws) agents /\ In k kws /\
    occurs_in (lower k) (lower P).
Proof.
  rewrite keyword_detected_get2, detect_agents_as_visits, get2_fold.
  intros [ms [G I]].
  destruct (last_hit (lower P) (triples T) c a) as [ms'|] eqn:H;
    [|discriminate].
  injection G as ->.
  destruct (last_hit_sound _ _ _ _ _ H) as [kws [It [-> _]]].
  apply in_triples in It. destruct It as [agents [Ic Ia]].
  apply in_matches_of in I. destruct I as [Ik O].
  now exists agents, kws.
Qed.

(** Pruning keeps keys unique. *)
Lemma matched_agents_keys (pl : string) (agents : dict (list string))
    (a : string) :
  in_strings a (dict_keys (matched_agents pl agents)) = true ->
  in_strings a (dict_keys agents) = true.
Proof.
  induction agents as [|[a0 kws] agents IH]; [discriminate|].
  cbn [matched_agents flat_map fst snd]. fold (matched_agents pl agents).
  destruct (truthy (matches_of pl kws)); cbn.
  - destruct (String.eqb a a0); [reflexivity | exact IH].
  - intros H. apply orb_true_iff. right. exact (IH H).
Qed.

Lemma matched_agents_wf (pl : string) (agents : dict (list string)) :
  dict_wf agents = true -> dict_wf (matched_agents pl agents) = true.
Proof.
  unfold dict_wf, dict_keys.
  induction agents as [|[a kws] agents IH]; [reflexivity|].
  cbn [map fst distinct]. intros W.
  apply andb_true_iff in W. destruct W as [N W].
  cbn [matched_agents flat_map fst snd]. fold (matched_agents pl agents).
  destruct (truthy (matches_of pl kws)); cbn [app]; [|now apply IH].
  cbn [map fst distinct]. rewrite (IH W), andb_true_r.
  apply negb_true_iff. apply negb_true_iff in N.
  destruct (in_strings a (map fst (matched_agents pl agents))) eqn:I;
    [|reflexivity].
  apply matched_agents_keys in I. unfold dict_keys in I. congruence.
Qed.

Lemma pruned_keys (pl : string) (T : taxonomy) (c : string) :
  in_strings c (dict_keys (pruned pl T)) = true ->
  in_strings c (dict_keys T) = true.
Proof.
  induction T as [|[c0 agents] T IH]; [discriminate|].
  cbn [pruned flat_map fst snd]. fold (pruned pl T).
  destruct (truthy (matched_agents pl agents)); cbn.
  - destruct (String.eqb c c0); [reflexivity | exact IH].
  - intros H. apply orb_true_iff. right. exact (IH H).
Qed.

Lemma pruned_wf (pl : string) (T : taxonomy) :
  taxonomy_wf T = true -> taxonomy_wf (pruned pl T) = true.
Proof.
  unfold taxonomy_wf, dict_wf, dict_keys.
  induction T as [|[c agents] T IH]; [reflexivity|].
  cbn [map fst distinct forallb snd]. intros W.
  apply andb_true_iff in W. destruct W as [Wc Wa].
  apply andb_true_iff in Wc. destruct Wc as [N Wc].
  apply andb_true_iff in Wa. destruct Wa as [Wag Wa].
  assert (IH' := IH (proj2 (andb_true_iff _ _) (conj Wc Wa))).
  apply andb_true_iff in IH'. destruct IH' as [Ic Ia].
  cbn [pruned flat_map fst snd]. fold (pruned pl T).
  destruct (truthy (matched_agents pl agents)); cbn [app].
  2:{ apply andb_true_iff. split; assumption. }
  cbn [map fst distinct forallb snd].
  rewrite Ic, Ia, !andb_true_r.
  pose proof (matched_agents_wf pl agents Wag) as Wm.
  unfold dict_wf, dict_keys in Wm. rewrite Wm, andb_true_r.
  apply negb_true_iff. apply negb_true_iff in N.
  destruct (in_strings c (map fst (pruned pl T))) eqn:I; [|reflexivity].
  apply pruned_keys in I. unfold dict_keys in I. congruence.
Qed.

End PrunedFacts.

(* ===================================================================== *)
(** * [findall] lists every word *)
(* ===================================================================== *)

Module WordFacts.
Import Text Re ReSpec TextFacts ReFacts.

(** On a stretch of word characters that ends at an edge, the greedy
    repetition takes the whole stretch. *)
Lemma rep_greedy_takes_run :
  forall (w : string) (n : nat) (prev : option ascii) (post : string),
    all_chars is_word w = true ->
    word_edge (first_char post) = true ->
    3 <= n + String.length w ->
    word_edge prev = false \/ w <> EmptyString ->
    rep_greedy (match_here false [WordB]) (cmatch false CWord) 3 None n prev
      (w ++ post) = Some w.
Proof.
  induction w as [|a w IH]; intros n prev post A Edge L Prev.
  - destruct Prev as [Prev|N]; [|congruence].
    simpl in L. rewrite Nat.add_0_r in L.
    assert (Stop : (if Nat.leb 3 n then match_here false [WordB] prev post
                    else None) = Some EmptyString).
    { destruct (Nat.leb_spec 3 n); [|lia]. cbn [match_here].
      replace (at_boundary prev post) with true; [reflexivity|].
      unfold at_boundary. destruct prev as [q|]; [|discriminate].
      cbn [word_edge] in Prev. apply negb_false_iff in Prev. rewrite Prev.
      destruct post as [|y post]; [reflexivity|].
      cbn in Edge. apply negb_true_iff in Edge. now rewrite Edge. }
    cbn [append]. destruct post as [|y post]; cbn [rep_greedy]; [exact Stop|].
    cbn in Edge. apply negb_true_iff in Edge.
    cbn [below cmatch andb]. rewrite Edge. exact Stop.
  - cbn [append rep_greedy below cmatch andb].
    simpl in A. apply andb_true_iff in A. destruct A as [Wa A]. rewrite Wa.
    cbn [String.length] in L. rewrite Nat.add_succ_r in L.
    rewrite (IH (S n) (Some a) post A Edge L); [reflexivity|].
    left. cbn. now rewrite Wa.
Qed.

(** At the start of a word the pattern matches the word. *)
Lemma word_pattern_matches_run (prev : option ascii) (w post : string) :
  all_chars is_word w = true ->
  3 <= String.length w ->
  word_edge prev = true ->
  word_edge (first_char post) = true ->
  match_here false word_pattern prev (w ++ post) = Some w.
Proof.
  intros A L Eb Ea. unfold word_pattern. cbn [match_here].
  destruct w as [|a w]; [simpl in L; lia|].
  replace (at_boundary prev (String a w ++ post)) with true.
  - apply rep_greedy_takes_run; auto. right. discriminate.
  - unfold at_boundary. cbn [append]. simpl in A.
    apply andb_true_iff in A. destruct A as [Wa _]. rewrite Wa.
    destruct prev as [q|]; [|reflexivity].
    cbn in Eb. apply negb_true_iff in Eb. now rewrite Eb.
Qed.

Lemma last_or_app_char (prev : option ascii) (pre : string) (a : ascii) :
  last_or prev (pre ++ String a EmptyString) = Some a.
Proof.
  revert prev. induction pre as [|x pre IH]; intros prev; [reflexivity|].
  cbn [append last_or]. apply IH.
Qed.

(** Every word of the text is listed: the scan never starts a skip that
    runs over the beginning of a word. *)
Lemma findall_lists_run :
  forall (pre : string) (prev : option ascii) (skip : nat) (w post : string),
    all_chars is_word w = true ->
    3 <= String.length w ->
    word_edge (last_or prev pre) = true ->
    word_edge (first_char post) = true ->
    inside_run prev (pre ++ w ++ post) skip ->
    In w (findall_from false word_pattern prev (pre ++ w ++ post) skip).
Proof.
  induction pre as [|a pre IH]; intros prev skip w post A L Eb Ea Inv.
  - cbn [append last_or] in *.
    assert (Z : skip = 0).
    { destruct Inv as [Z|[Pv _]]; [exact Z | congruence]. }
    subst skip.
    pose proof (word_pattern_matches_run prev w post A L Eb Ea) as M.
    destruct w as [|x w]; [simpl in L; lia|].
    cbn [append] in *. cbn [findall_from]. rewrite M. now left.
  - cbn [append last_or] in *.
    assert (Next : forall k,
      inside_run (Some a) (pre ++ w ++ post) k ->
      In w (findall_from false word_pattern (Some a) (pre ++ w ++ post) k)).
    { intros k Hk. now apply IH. }
    destruct skip as [|k]; cbn [findall_from].
    + destruct (match_here false word_pattern prev
                  (String a (pre ++ w ++ post))) as [m|] eqn:M.
      * right. apply Next.
        destruct (word_match _ _ _ M) as [rest [E [Am [Lm _]]]].
        destruct m as [|x m]; [simpl in Lm; lia|].
        cbn [append] in E. injection E as <- E.
        cbn [String.length Nat.pred].
        destruct m as [|y m]; [now left|]. right.
        simpl in Am. apply andb_true_iff in Am. destruct Am as [Wa Am].
        split; [cbn; now rewrite Wa|].
        exists (String y m), rest. repeat split; auto.
      * apply Next. now left.
    + apply Next. destruct Inv as [Z|[Pv [run [rest [E [Len Ar]]]]]];
        [discriminate|].
      destruct run as [|x run]; [discriminate|].
      cbn [append] in E. injection E as <- E.
      simpl in Len. injection Len as Len.
      simpl in Ar. apply andb_true_iff in Ar. destruct Ar as [Wa Ar].
      destruct run as [|y run]; [left; now rewrite <- Len|]. right.
      split; [cbn; now rewrite Wa|].
      exists (String y run), rest. repeat split; auto.
Qed.

Lemma findall_words_complete (s w : string) (ws : list string) :
  re_findall "\b\w{3,}\b" s = Some ws ->
  word_run w s -> In w ws.
Proof.
  unfold re_findall. rewrite word_pattern_compiles. cbn [option_map].
  intros [= <-] [A [L [pre [post [-> [Eb Ea]]]]]].
  apply findall_lists_run; auto. now left.
Qed.

End WordFacts.

(* ===================================================================== *)
(** * The effects of the steps *)
(* ===================================================================== *)

Module EffectFacts.
Import Text Re Py Hook Effects TextFacts DictFacts HookFacts MainFacts.
Local Open Scope py_scope.

(** The three outcomes of the store step. *)
Lemma store_context_effect (E : env) (h : hook) (P : string)
    (d : detection) (ctx : project_context) (w : world) :
  let row := stored_row E h P d ctx (clock E (clock_reads w)) in
  exists w',
    store_context E h P d ctx w = (Ok tt, w') /\
    http_requests w' = http_requests w /\
    stdout w' = stdout w /\
    clock_reads w' = S (clock_reads w) /\
    match sqlite_execute E (Insert row), sqlite_commit E with
    | Returns _, Returns _ =>
        db_rows w' = db_rows w ++ [row] /\
        db_committed w' = db_rows w ++ [row] /\
        stderr w' = stderr w
    | Returns _, Fails e =>
        db_rows w' = db_rows w ++ [row] /\
        db_committed w' = db_committed w /\
        stderr w' = stderr w ++
          [("Warning: Could not store context: " ++ str_exc e)%string]
    | Fails e, _ =>
        db_rows w' = db_rows w /\
        db_committed w' = db_committed w /\
        stderr w' = stderr w ++
          [("Warning: Could not store context: " ++ str_exc e)%string]
    end.
Proof.
  intros row. unfold store_context. step_m. fold row.
  unfold stored_row in row. fold row.
  destruct (sqlite_execute E (Insert row)) as [[]|e]; cbn.
  - destruct (sqlite_commit E) as [[]|e]; cbn; eexists;
      (split; [reflexivity|]); cbn; repeat split; reflexivity.
  - eexists; (split; [reflexivity|]); cbn.
    destruct (sqlite_commit E); repeat split; reflexivity.
Qed.

Lemma store_context_rows (E : env) (h : hook) (P : string)
    (d : detection) (ctx : project_context) (w : world) :
  exists w',
    store_context E h P d ctx w = (Ok tt, w') /\
    http_requests w' = http_requests w /\
    stdout w' = stdout w /\
    grows_by_at_most_one (db_rows w) (db_rows w').
Proof.
  destruct (store_context_effect E h P d ctx w) as [w' [S [H [O [_ R]]]]].
  exists w'. repeat split; auto.
  destruct (sqlite_execute E _) as [[]|e].
  - destruct (sqlite_commit E) as [[]|e']; destruct R as [R _];
      eexists; (split; [exact R|]); simpl; lia.
  - destruct R as [R _]. exists []. rewrite app_nil_r. split; [exact R|].
    simpl. lia.
Qed.

(** The two clients leave the store and the primary output alone. *)
Lemma log_event_frame (E : env) (ev : event_data) (w : world) :
  exists w',
    log_event E ev w = (Ok PyNone, w') /\
    http_requests w' =
      http_requests w ++ [(observability_endpoint, EventBody ev)] /\
    stdout w' = stdout w /\
    db_rows w' = db_rows w /\
    db_committed w' = db_committed w /\
    clock_reads w' = clock_reads w.
Proof.
  unfold log_event. step_m.
  destruct (requests_post E observability_endpoint (EventBody ev))
    as [resp|e]; cbn.
  - destruct (Z.eqb (status_code resp) 200); cbn;
      eexists; (split; [reflexivity|]); cbn; auto.
  - eexists; (split; [reflexivity|]); cbn; auto.
Qed.

Lemma route_frame (E : env) (h : hook) (P : string) (d : detection)
    (ctx : project_context) (w : world) :
  let request := routing_request h P d ctx (clock E (clock_reads w)) in
  exists r w',
    route_to_orchestrator E h P d ctx w = (Ok r, w') /\
    http_requests w' = http_requests w ++ [(orchestrator_endpoint, request)] /\
    stdout w' = stdout w /\
    db_rows w' = db_rows w /\
    db_committed w' = db_committed w /\
    (r = None <->
     routing_failed (requests_post E orchestrator_endpoint request)) /\
    (r = None -> exists warning, stderr w' = stderr w ++ [warning]) /\
    (r <> None -> stderr w' = stderr w).
Proof.
  intros request. unfold route_to_orchestrator. step_m.
  unfold routing_request in request. fold request.
  destruct (requests_post E orchestrator_endpoint request) as [resp|e]; cbn.
  - destruct (Z.eqb_spec (status_code resp) 200) as [S|S]; cbn.
    + destruct (response_json resp) as [body|e] eqn:J; cbn;
        eexists; eexists; (split; [reflexivity|]); cbn; repeat split; auto;
        try discriminate; try congruence.
      * intros [N|[e' N]]; congruence.
      * intros _. right. now exists e.
      * intros _. eexists. reflexivity.
    + eexists; eexists; (split; [reflexivity|]); cbn; repeat split; auto;
        try congruence.
      intros _. eexists. reflexivity.
  - eexists; eexists; (split; [reflexivity|]); cbn; repeat split; auto;
      try congruence.
    intros _. eexists. reflexivity.
Qed.

(** The whole continue path: the result and what was sent and stored. *)
Lemma process_prompt_effects (E : env) (h : hook) (P : string) (w : world) :
  detect_security_issues h P = [] ->
  exists ctx orch t1 t2 w',
    get_project_context E w = (Ok ctx, w) /\
    process_prompt E h P w =
      (Ok (Continue (session_id h) (detect_agents h P) ctx orch
             (enhance_prompt P (detect_agents h P) ctx)), w') /\
    http_requests w' = http_requests w ++
      [(observability_endpoint,
        EventBody (prompt_event h P (detect_agents h P) ctx t1));
       (orchestrator_endpoint,
        routing_request h P (detect_agents h P) ctx t2)] /\
    stdout w' = stdout w /\
    grows_by_at_most_one (db_rows w) (db_rows w').
Proof.
  intros Clean. unfold process_prompt. rewrite Clean. cbn [truthy].
  destruct (get_project_context_returns E w) as [ctx [G _]].
  exists ctx. rewrite (bind_ok _ _ _ _ _ G).
  destruct (store_context_rows E h P (detect_agents h P) ctx w)
    as [w1 [S [H1 [O1 R1]]]].
  rewrite (bind_ok _ _ _ _ _ S).
  unfold bind at 1. unfold now at 1.
  match goal with
  | |- context [bind (log_event E ?ev) _ ?w2] =>
      destruct (log_event_frame E ev w2) as [w3 [L [H3 [O3 [R3 _]]]]];
      rewrite (bind_ok _ _ _ _ _ L)
  end.
  destruct (route_frame E h P (detect_agents h P) ctx w3)
    as [r [w4 [R [H4 [O4 [R4 _]]]]]].
  rewrite (bind_ok _ _ _ _ _ R). unfold ret.
  exists r. eexists. eexists. exists w4.
  split; [exact G|]. split; [reflexivity|]. cbn in H3, O3, R3.
  split; [|split].
  - rewrite H4, H3, H1, <- app_assoc. reflexivity.
  - congruence.
  - rewrite R4, R3. exact R1.
Qed.


(** The constructor: it returns exactly when everything it needs goes
    well, it prints and sends nothing, and it adds no row. *)
Lemma init_outcome (E : env) (w : world) :
  exists r w1,
    __init__ E w = (r, w1) /\
    db_rows w1 = db_rows w /\
    http_requests w1 = http_requests w /\
    stdout w1 = stdout w /\
    stderr w1 = stderr w /\
    if constructible E then
      exists h,
        r = Ok h /\
        security_filters h = load_security_filters /\
        session_id h =
          substring 0 8 (md5_hexdigest E (clock E (clock_reads w))) /\
        load_keyword_patterns E w = (Ok (keyword_patterns h), w) /\
        load_agent_registry E w = (Ok (agent_registry h), w) /\
        db_committed w1 = db_rows w
    else exists e, r = Raise (Raised e).
Proof.
  unfold __init__, generate_session_id, init_context_db, constructible,
    load_keyword_patterns, load_agent_registry.
  step_m.
  destruct (path_exists E (path_join (config_dir E) "keyword-patterns.json")).
  - destruct (load_taxonomy_file E _) as [T|e]; cbn.
    2:{ eexists; eexists; (split; [reflexivity|]); cbn; repeat split; eauto. }
    destruct (path_exists E (path_join (config_dir E) "agent-registry.json")).
    + destruct (load_json_file E _) as [j|e]; cbn.
      2:{ eexists; eexists; (split; [reflexivity|]); cbn; repeat split; eauto. }
      destruct (sqlite_connect E _) as [[]|e]; cbn.
      2:{ eexists; eexists; (split; [reflexivity|]); cbn; repeat split; eauto. }
      destruct (sqlite_execute E CreateTable) as [[]|e]; cbn.
      2:{ eexists; eexists; (split; [reflexivity|]); cbn; repeat split; eauto. }
      destruct (sqlite_execute E CreateIndex) as [[]|e]; cbn.
      2:{ eexists; eexists; (split; [reflexivity|]); cbn; repeat split; eauto. }
      destruct (sqlite_commit E) as [[]|e]; cbn;
        eexists; eexists; (split; [reflexivity|]); cbn; repeat split; eauto.
      eexists. repeat split; reflexivity.
    + cbn. destruct (sqlite_connect E _) as [[]|e]; cbn.
      2:{ eexists; eexists; (split; [reflexivity|]); cbn; repeat split; eauto. }
      destruct (sqlite_execute E CreateTable) as [[]|e]; cbn.
      2:{ eexists; eexists; (split; [reflexivity|]); cbn; repeat split; eauto. }
      destruct (sqlite_execute E CreateIndex) as [[]|e]; cbn.
      2:{ eexists; eexists; (split; [reflexivity|]); cbn; repeat split; eauto. }
      destruct (sqlite_commit E) as [[]|e]; cbn;
        eexists; eexists; (split; [reflexivity|]); cbn; repeat split; eauto.
      eexists. repeat split; reflexivity.
  - cbn.
    destruct (path_exists E (path_join (config_dir E) "agent-registry.json")).
    + destruct (load_json_file E _) as [j|e]; cbn.
      2:{ eexists; eexists; (split; [reflexivity|]); cbn; repeat split; eauto. }
      destruct (sqlite_connect E _) as [[]|e]; cbn.
      2:{ eexists; eexists; (split; [reflexivity|]); cbn; repeat split; eauto. }
      destruct (sqlite_execute E CreateTable) as [[]|e]; cbn.
      2:{ eexists; eexists; (split; [reflexivity|]); cbn; repeat split; eauto. }
      destruct (sqlite_execute E CreateIndex) as [[]|e]; cbn.
      2:{ eexists; eexists; (split; [reflexivity|]); cbn; repeat split; eauto. }
      destruct (sqlite_commit E) as [[]|e]; cbn;
        eexists; eexists; (split; [reflexivity|]); cbn; repeat split; eauto.
      eexists. repeat split; reflexivity.
    + cbn. destruct (sqlite_connect E _) as [[]|e]; cbn.
      2:{ eexists; eexists; (split; [reflexivity|]); cbn; repeat split; eauto. }
      destruct (sqlite_execute E CreateTable) as [[]|e]; cbn.
      2:{ eexists; eexists; (split; [reflexivity|]); cbn; repeat split; eauto. }
      destruct (sqlite_execute E CreateIndex) as [[]|e]; cbn.
      2:{ eexists; eexists; (split; [reflexivity|]); cbn; repeat split; eauto. }
      destruct (sqlite_commit E) as [[]|e]; cbn;
        eexists; eexists; (split; [reflexivity|]); cbn; repeat split; eauto.
      eexists. repeat split; reflexivity.
Qed.







(** The first [n] characters, in general. *)
Lemma substring_head (n : nat) :
  forall s,
    String.length (substring 0 n s) = Nat.min n (String.length s) /\
    exists rest, s = (substring 0 n s ++ rest)%string.
Proof.
  induction n as [|n IH]; intros s.
  - destruct s; cbn; split; auto; eexists; reflexivity.
  - destruct s as [|c s]; cbn [substring String.length Nat.min].
    + split; [reflexivity|]. now exists EmptyString.
    + destruct (IH s) as [Len [rest R]]. split; [now rewrite Len|].
      exists rest. cbn [append]. now rewrite <- R.
Qed.

Lemma substring_whole (n : nat) :
  forall s, String.length s <= n -> substring 0 n s = s.
Proof.
  induction n as [|n IH]; intros s L.
  - destruct s; [reflexivity | simpl in L; lia].
  - destruct s as [|c s]; [reflexivity|]. cbn [substring].
    rewrite IH; [reflexivity | simpl in L; lia].
Qed.

(** The probe sees the working directory only. *)
Lemma get_project_context_same (E1 E2 : env) (w1 w2 : world) :
  same_project E1 E2 ->
  exists ctx,
    get_project_context E1 w1 = (Ok ctx, w1) /\
    get_project_context E2 w2 = (Ok ctx, w2).
Proof.
  intros [C [X R]]. unfold get_project_context.
  rewrite <- C. rewrite <- !X. rewrite <- R.
  destruct (path_exists E1 (path_join (cwd E1) "CLAUDE.md")).
  - step_m. destruct (read_text E1 _); eexists; split; reflexivity.
  - step_m. eexists; split; reflexivity.
Qed.

Lemma sapp_same_nil (a b : string) : (a ++ b)%string = a -> b = EmptyString.
Proof.
  intros H. apply (f_equal String.length) in H.
  rewrite slength_app in H. destruct b; [reflexivity | simpl in H; lia].
Qed.

End EffectFacts.

(* ===================================================================== *)
(** * Further properties of the hook *)
(* ===================================================================== *)

Module MoreProperties.
Import Text Re ReSpec Py Hook Detect DetectSpec Effects Compare.
Import TextFacts DictFacts ReFacts HookFacts DetectFacts MainFacts.
Import AcceptFacts CaseFacts PrunedFacts WordFacts EffectFacts.
Local Open Scope py_scope.

(** ** Security filter *)

(** X1: [detect_security_issues] reports one issue per pattern that
    matches the prompt, in the order of the patterns: an issue is listed
    exactly when it is the label followed by a pattern of the hook that
    matches, and there are never more issues than patterns. *)
Theorem security_issues_listed (h : hook) (P : string) :
  detect_security_issues h P =
    map (fun pattern => ("Potential security risk: " ++ pattern)%string)
        (filter (fun pattern => pattern_matches pattern P)
                (security_filters h)) /\
  (forall issue,
     In issue (detect_security_issues h P) <->
     exists pattern,
       In pattern (security_filters h) /\
       pattern_matches pattern P = true /\
       issue = ("Potential security risk: " ++ pattern)%string) /\
  List.length (detect_security_issues h P)
    <= List.length (security_filters h).
Proof.
  rewrite detect_security_issues_eq. split; [reflexivity|]. split.
  - intros issue. rewrite in_map_iff. split.
    + intros [pattern [<- I]]. apply filter_In in I. destruct I as [I M].
      now exists pattern.
    + intros [pattern [I [M ->]]]. exists pattern. split; [reflexivity|].
      now apply filter_In.
  - rewrite length_map. apply filter_length_le.
Qed.





(** ** Agent detection *)

(** X4: for a taxonomy with unique keys, [detect_agents] returns the
    taxonomy pruned: the categories and their agents in the order of the
    taxonomy, each agent with those of its keywords that occur in the
    lowercased prompt, in their order, and without the agents and the
    categories that are left empty. *)
Theorem detect_agents_prunes_taxonomy (h : hook) (P : string) :
  taxonomy_wf (keyword_patterns h) = true ->
  detect_agents h P = pruned (lower P) (keyword_patterns h).
Proof. intros W. now apply detect_agents_pruned. Qed.

Lemma detect_agents_prunes_taxonomy_witness :
  taxonomy_wf (keyword_patterns Demo.default_hook) = true /\
  detect_agents Demo.default_hook "Fix the SLOW docker deploy" =
  pruned (lower "Fix the SLOW docker deploy")
    (keyword_patterns Demo.default_hook).
Proof.
  assert (W : taxonomy_wf (keyword_patterns Demo.default_hook) = true)
    by (vm_compute; reflexivity).
  split; [exact W|].
  exact (detect_agents_prunes_taxonomy Demo.default_hook _ W).
Defined.

(** X5: more text never loses a detection: for a taxonomy with unique
    keys, when the lowercased [P] occurs in the lowercased [Q], every
    keyword listed for [P] under a category and agent is listed for [Q]
    under the same ones. *)
Theorem detection_grows_with_prompt (h : hook) (P Q : string) :
  taxonomy_wf (keyword_patterns h) = true ->
  occurs_in (lower P) (lower Q) ->
  forall category agent keyword,
    keyword_detected (detect_agents h P) category agent keyword ->
    keyword_detected (detect_agents h Q) category agent keyword.
Proof.
  intros W O c a k D. unfold detect_agents in *.
  destruct (keyword_detected_origin _ _ _ _ _ D)
    as [agents [kws [Ic [Ia [Ik Ok]]]]].
  apply keyword_detected_get2.
  rewrite (get2_detect _ Q c a agents kws W Ic Ia).
  assert (I : In k (matches_of (lower Q) kws)).
  { apply in_matches_of. split; [exact Ik|].
    now apply (occurs_in_trans _ (lower P)). }
  destruct (matches_of (lower Q) kws) as [|m ms] eqn:M; [contradiction|].
  cbn [truthy]. eexists. split; [reflexivity | exact I].
Qed.

Lemma detection_grows_with_prompt_witness :
  taxonomy_wf (keyword_patterns Demo.default_hook) = true /\
  occurs_in (lower "slow api") (lower "Why is the SLOW API down?") /\
  keyword_detected
    (detect_agents Demo.default_hook "Why is the SLOW API down?")
    "engineering" "performance-optimizer" "slow".
Proof.
  assert (W : taxonomy_wf (keyword_patterns Demo.default_hook) = true)
    by (vm_compute; reflexivity).
  assert (O : occurs_in (lower "slow api") (lower "Why is the SLOW API down?")).
  { apply contains_iff. vm_compute. reflexivity. }
  split; [exact W|]. split; [exact O|].
  apply (detection_grows_with_prompt Demo.default_hook
           "slow api" "Why is the SLOW API down?" W O).
  apply keyword_detected_get2. vm_compute. eexists. split; [reflexivity|].
  left. reflexivity.
Defined.

(** X6: for a taxonomy with unique keys, the agent count that the
    annotation shows is the number of (category, agent) entries of the
    taxonomy with at least one keyword in the prompt; it never exceeds
    the number of entries. *)
Theorem agent_count_counts_hits (h : hook) (P : string) :
  taxonomy_wf (keyword_patterns h) = true ->
  agent_count (detect_agents h P)
    = List.length (hits (lower P) (keyword_patterns h)) /\
  agent_count (detect_agents h P)
    <= List.length (triples (keyword_patterns h)).
Proof.
  intros W. unfold detect_agents.
  rewrite (detect_agents_pruned _ P W), agent_count_pruned.
  split; [reflexivity|]. apply filter_length_le.
Qed.

Lemma agent_count_counts_hits_witness :
  taxonomy_wf (keyword_patterns Demo.default_hook) = true /\
  agent_count (detect_agents Demo.default_hook "make the tests fast") = 2.
Proof.
  assert (W : taxonomy_wf (keyword_patterns Demo.default_hook) = true)
    by (vm_compute; reflexivity).
  split; [exact W|].
  rewrite (proj1 (agent_count_counts_hits Demo.default_hook
                    "make the tests fast" W)).
  vm_compute. reflexivity.
Defined.

(** X7: a keyword that is the empty text is in every prompt: for a
    taxonomy with unique keys, an agent that has the empty keyword is
    detected for every prompt, the empty keyword among its matches. *)
Theorem empty_keyword_always_detected (h : hook) (P : string) :
  taxonomy_wf (keyword_patterns h) = true ->
  forall category agents agent keywords,
    In (category, agents) (keyword_patterns h) ->
    In (agent, keywords) agents ->
    In EmptyString keywords ->
    keyword_detected (detect_agents h P) category agent EmptyString.
Proof.
  intros W c agents a kws Ic Ia Ik. unfold detect_agents.
  apply keyword_detected_get2.
  rewrite (get2_detect _ P c a agents kws W Ic Ia).
  assert (I : In EmptyString (matches_of (lower P) kws)).
  { apply in_matches_of. split; [exact Ik|].
    exists EmptyString, (lower P). reflexivity. }
  destruct (matches_of (lower P) kws) as [|m ms] eqn:M; [contradiction|].
  cbn [truthy]. eexists. split; [reflexivity | exact I].
Qed.

Lemma empty_keyword_always_detected_witness :
  let h := {| session_id := "01234567";
              keyword_patterns := [("ops", [("helper", [""; "deploy"])])];
              security_filters := load_security_filters;
              agent_registry := JObj [] |} in
  taxonomy_wf (keyword_patterns h) = true /\
  keyword_detected (detect_agents h "hello") "ops" "helper" EmptyString.
Proof.
  intros h.
  assert (W : taxonomy_wf (keyword_patterns h) = true) by reflexivity.
  split; [exact W|].
  apply (empty_keyword_always_detected h "hello" W
           "ops" [("helper", [""; "deploy"])] "helper" [""; "deploy"]);
    left; reflexivity.
Defined.

(** X8: the detection result keeps the keys unique: for a taxonomy
    with unique keys, no category is listed twice in the result and no
    agent twice in a category, and every category of the result is one of
    the taxonomy. *)
Theorem detection_keys_unique (h : hook) (P : string) :
  taxonomy_wf (keyword_patterns h) = true ->
  taxonomy_wf (detect_agents h P) = true /\
  forall category,
    In category (dict_keys (detect_agents h P)) ->
    In category (dict_keys (keyword_patterns h)).
Proof.
  intros W. unfold detect_agents. rewrite (detect_agents_pruned _ P W).
  split; [now apply pruned_wf|].
  intros c I. apply in_strings_iff. apply (pruned_keys (lower P)).
  now apply in_strings_iff.
Qed.

Lemma detection_keys_unique_witness :
  taxonomy_wf (keyword_patterns Demo.default_hook) = true /\
  taxonomy_wf (detect_agents Demo.default_hook
                 "brand design with viral marketing") = true.
Proof.
  assert (W : taxonomy_wf (keyword_patterns Demo.default_hook) = true)
    by (vm_compute; reflexivity).
  split; [exact W|].
  exact (proj1 (detection_keys_unique Demo.default_hook
                  "brand design with viral marketing" W)).
Defined.

(** ** Keyword extraction *)

(** X9: [extract_keywords] lists exactly the words of the lowercased
    prompt that are no stopwords, a word being a run of at least three
    word characters with an edge on both sides: none is left out and
    nothing else is listed. *)
Theorem extract_keywords_exact (E : env) (P : string) :
  set_order_ok (set_order E) ->
  forall word,
    In word (extract_keywords E P) <->
    word_run word (lower P) /\ in_strings word stopwords = false.
Proof.
  intros Ord word. unfold extract_keywords.
  assert (F : exists ws, re_findall "\b\w{3,}\b" (lower P) = Some ws).
  { unfold re_findall. rewrite word_pattern_compiles. eexists. reflexivity. }
  destruct F as [ws F]. rewrite F.
  rewrite (proj2 (Ord _) word), filter_In, negb_true_iff. split.
  - intros [I Stop]. split; [|exact Stop].
    destruct (findall_words (lower P) word ws F I) as [A [L R]].
    now repeat split.
  - intros [R Stop]. split; [|exact Stop].
    now apply (findall_words_complete (lower P) word ws F).
Qed.

Lemma extract_keywords_exact_witness :
  set_order_ok (set_order (Demo.plain_env [])) /\
  In "cache" (extract_keywords (Demo.plain_env []) "Warm the CACHE!").
Proof.
  assert (Ord : set_order_ok (set_order (Demo.plain_env []))).
  { intros l. simpl. split; [apply NoDup_nodup | intros x; apply nodup_In]. }
  split; [exact Ord|].
  apply (proj2 (extract_keywords_exact (Demo.plain_env [])
                  "Warm the CACHE!" Ord "cache")).
  split; [|vm_compute; reflexivity].
  split; [vm_compute; reflexivity|]. split; [simpl; lia|].
  exists "warm the ", "!". vm_compute. repeat split; reflexivity.
Defined.

(** ** Context store *)

(** X10: [store_context] never raises and sends nothing.  When the insert
    and the commit succeed, the table has one more row, the row of this
    prompt, and it is committed; when the commit fails the row is there
    and not committed; when the insert fails the table is as before.  In
    the two cases of failure one warning goes to the diagnostic
    channel. *)
Theorem store_context_outcomes (E : env) (h : hook) (P : string)
    (d : detection) (ctx : project_context) (w : world) :
  let row := stored_row E h P d ctx (clock E (clock_reads w)) in
  exists w',
    store_context E h P d ctx w = (Ok tt, w') /\
    http_requests w' = http_requests w /\
    stdout w' = stdout w /\
    clock_reads w' = S (clock_reads w) /\
    match sqlite_execute E (Insert row), sqlite_commit E with
    | Returns _, Returns _ =>
        db_rows w' = db_rows w ++ [row] /\
        db_committed w' = db_rows w ++ [row] /\
        stderr w' = stderr w
    | Returns _, Fails e =>
        db_rows w' = db_rows w ++ [row] /\
        db_committed w' = db_committed w /\
        stderr w' = stderr w ++
          [("Warning: Could not store context: " ++ str_exc e)%string]
    | Fails e, _ =>
        db_rows w' = db_rows w /\
        db_committed w' = db_committed w /\
        stderr w' = stderr w ++
          [("Warning: Could not store context: " ++ str_exc e)%string]
    end.
Proof. apply store_context_effect. Qed.

(** ** Pipeline *)

(** X11: for a prompt that is not blocked, [process_prompt] sends exactly
    two requests, first the event of this prompt to the telemetry
    endpoint, then the routing request of this prompt to the
    orchestrator, whatever the store and the first call did; it prints
    nothing on the primary output and adds at most one row to the
    table. *)
Theorem continue_path_effects (E : env) (h : hook) (P : string) (w : world) :
  detect_security_issues h P = [] ->
  exists ctx orch t1 t2 w',
    get_project_context E w = (Ok ctx, w) /\
    process_prompt E h P w =
      (Ok (Continue (session_id h) (detect_agents h P) ctx orch
             (enhance_prompt P (detect_agents h P) ctx)), w') /\
    http_requests w' = http_requests w ++
      [(observability_endpoint,
        EventBody (prompt_event h P (detect_agents h P) ctx t1));
       (orchestrator_endpoint,
        routing_request h P (detect_agents h P) ctx t2)] /\
    stdout w' = stdout w /\
    grows_by_at_most_one (db_rows w) (db_rows w').
Proof. apply process_prompt_effects. Qed.

Lemma continue_path_effects_witness :
  detect_security_issues Demo.default_hook "hello" = [] /\
  exists w',
    snd (process_prompt (Demo.served_env [Demo.script; "hello"])
           Demo.default_hook "hello" Demo.fresh_world) = w' /\
    List.length (http_requests w') = 2 /\
    stdout w' = [].
Proof.
  assert (C : detect_security_issues Demo.default_hook "hello" = [])
    by (vm_compute; reflexivity).
  split; [exact C|].
  destruct (continue_path_effects (Demo.served_env [Demo.script; "hello"])
              Demo.default_hook "hello" Demo.fresh_world C)
    as [ctx [orch [t1 [t2 [w' [_ [R [H [O _]]]]]]]]].
  exists w'. rewrite R. split; [reflexivity|].
  rewrite H, O. split; reflexivity.
Defined.

(** X12: the decision does not depend on the store or on the services:
    under two oracles that show the same working directory, whatever
    their clocks, stores and endpoints do, [process_prompt] returns the
    same action, and with it the same issues, or the same detected
    agents, project context and enhanced prompt; only the orchestration
    result can differ. *)
Theorem decision_independent_of_services
    (E1 E2 : env) (h : hook) (P : string) (w1 w2 : world) :
  same_project E1 E2 ->
  exists r1 r2 w1' w2',
    process_prompt E1 h P w1 = (Ok r1, w1') /\
    process_prompt E2 h P w2 = (Ok r2, w2') /\
    action r1 = action r2 /\
    same_decision r1 r2.
Proof.
  intros Same.
  destruct (detect_security_issues h P) as [|issue issues] eqn:D.
  - destruct (process_prompt_continues E1 h P w1 D)
      as [c1 [q1 [w1' [G1 R1]]]].
    destruct (process_prompt_continues E2 h P w2 D)
      as [c2 [q2 [w2' [G2 R2]]]].
    destruct (get_project_context_same E1 E2 w1 w2 Same) as [ctx [G1' G2']].
    assert (c1 = ctx) by congruence. assert (c2 = ctx) by congruence.
    subst c1 c2.
    eexists. eexists. exists w1', w2'.
    split; [exact R1|]. split; [exact R2|]. cbn. auto.
  - assert (B : detect_security_issues h P <> [])
      by (rewrite D; discriminate).
    eexists. eexists. exists w1, w2.
    split; [exact (process_prompt_blocks E1 h P w1 B)|].
    split; [exact (process_prompt_blocks E2 h P w2 B)|]. cbn. auto.
Qed.

Lemma decision_independent_of_services_witness :
  same_project (Demo.plain_env [Demo.script; "review the docs"])
               (Demo.served_env [Demo.script; "review the docs"]) /\
  exists r1 r2 w1' w2',
    process_prompt (Demo.plain_env [Demo.script; "review the docs"])
      Demo.default_hook "review the docs" Demo.fresh_world = (Ok r1, w1') /\
    process_prompt (Demo.served_env [Demo.script; "review the docs"])
      Demo.default_hook "review the docs" Demo.fresh_world = (Ok r2, w2') /\
    action r1 = action r2 /\
    same_decision r1 r2.
Proof.
  assert (S : same_project (Demo.plain_env [Demo.script; "review the docs"])
                (Demo.served_env [Demo.script; "review the docs"])).
  { repeat split; intros; reflexivity. }
  split; [exact S|].
  exact (decision_independent_of_services _ _ Demo.default_hook
           "review the docs" Demo.fresh_world Demo.fresh_world S).
Defined.


(** ** The process *)





(** X17: the constructor returns exactly when everything it needs goes
    well (each configuration file absent or decoded, the store opened,
    table, index and commit accepted) and raises otherwise.  It prints
    nothing, sends nothing and adds no row.  The hook it returns has the
    built-in security patterns, whatever the configuration files hold,
    the first eight characters of the digest of the start time as
    session id, and the keyword patterns and the registry that the two
    loaders return; the rows of the table are then committed. *)
Theorem constructor_outcome (E : env) (w : world) :
  exists r w1,
    __init__ E w = (r, w1) /\
    db_rows w1 = db_rows w /\
    http_requests w1 = http_requests w /\
    stdout w1 = stdout w /\
    stderr w1 = stderr w /\
    if constructible E then
      exists h,
        r = Ok h /\
        security_filters h = load_security_filters /\
        session_id h =
          substring 0 8 (md5_hexdigest E (clock E (clock_reads w))) /\
        load_keyword_patterns E w = (Ok (keyword_patterns h), w) /\
        load_agent_registry E w = (Ok (agent_registry h), w) /\
        db_committed w1 = db_rows w
    else exists e, r = Raise (Raised e).
Proof. apply init_outcome. Qed.


(** ** Project context *)

(** X19: the excerpt of the instructions file, in general: when the
    context has an excerpt, the file is flagged as present, the excerpt
    is the beginning of the text read, of length the smaller of 1000 and
    the length of the text, so never longer than 1000, and a text of at
    most 1000 characters is kept whole. *)
Theorem excerpt_is_bounded_prefix (E : env) (w : world) :
  exists ctx,
    get_project_context E w = (Ok ctx, w) /\
    forall excerpt,
      claude_md_content ctx = Some excerpt ->
      has_claude_md ctx = true /\
      exists text rest,
        read_text E (path_join (cwd E) "CLAUDE.md") = Returns text /\
        text = (excerpt ++ rest)%string /\
        String.length excerpt = Nat.min 1000 (String.length text) /\
        String.length excerpt <= 1000 /\
        (String.length text <= 1000 -> excerpt = text).
Proof.
  destruct (get_project_context_returns E w) as [ctx [G [Hc [_ C]]]].
  exists ctx. split; [exact G|]. intros excerpt X. rewrite X in C.
  rewrite Hc.
  destruct (path_exists E (path_join (cwd E) "CLAUDE.md")); [|discriminate].
  split; [reflexivity|].
  destruct (read_text E (path_join (cwd E) "CLAUDE.md")) as [text|e];
    [|discriminate].
  injection C as ->.
  destruct (substring_head 1000 text) as [Len [rest R]].
  exists text, rest. repeat split; auto.
  - rewrite Len. apply Nat.le_min_l.
  - apply substring_whole.
Qed.

(** ** Orchestration client *)


(** ** Prompt annotation *)

(** X21: for every detection result and context, [enhance_prompt] returns
    the prompt unchanged exactly when there is no instructions file, no
    version control and the detection result is the empty dictionary;
    in every other case the result is longer than the prompt. *)
Theorem enhance_prompt_identity (P : string) (d : detection)
    (ctx : project_context) :
  (enhance_prompt P d ctx = P <->
   has_claude_md ctx = false /\ git_repository ctx = false /\ d = []) /\
  (enhance_prompt P d ctx <> P ->
   String.length P < String.length (enhance_prompt P d ctx)).
Proof.
  assert (T : truthy (enhancements_of d ctx) =
              has_claude_md ctx || git_repository ctx || truthy d).
  { unfold enhancements_of.
    destruct (has_claude_md ctx), (git_repository ctx), d; reflexivity. }
  unfold enhance_prompt. rewrite T.
  destruct (has_claude_md ctx || git_repository ctx || truthy d) eqn:S.
  - split.
    + split.
      * intros H. apply sapp_same_nil in H. discriminate.
      * intros [H1 [H2 ->]]. rewrite H1, H2 in S. discriminate.
    + intros _. rewrite slength_app. cbn. lia.
  - apply orb_false_iff in S. destruct S as [S Td].
    apply orb_false_iff in S. destruct S as [H1 H2].
    apply truthy_false_list in Td.
    split; [tauto | congruence].
Qed.

End MoreProperties.
